(** * Web-Contact-Scraper: a shallow embedding of [novisitedlink.py]

    The development follows the source file top to bottom:
    - [Py]       the Python built-ins the program uses on [str] and [list];
    - [Re]       the fragment of [re] needed by [EMAIL_REGEX] and [PHONE_REGEX];
    - [Scraper]  the program itself, over an abstract platform (HTTP, HTML
                 parser, entity recogniser, [urllib.parse]);
    - the properties of the program, and a small concrete platform on which
      they are exercised.

    Conventions.  A Python [str] is a Rocq [string]; its characters are the
    code points below 256, so that the Unicode-aware classes [\d] and [\s]
    are the ones of that range.  A Python [set] of strings is a [gset string];
    [list(s)] is [elements s]: like CPython's, its order is fixed by the
    implementation and no property below depends on it. *)

From Stdlib Require Import Ascii String ZArith Lia.
From stdpp Require Import gmap strings list sets.

Local Open Scope Z_scope.
Local Open Scope nat_scope.

(* ===================================================================== *)
(** * Python built-ins *)
(* ===================================================================== *)

Module Py.

(** [sub in s] on strings. *)
Fixpoint contains (sub s : string) : bool :=
  String.prefix sub s ||
  match s with
  | EmptyString => false
  | String _ s' => contains sub s'
  end.

(** [s.startswith((p1, p2, ...))]. *)
Definition startswith (s : string) (prefixes : list string) : bool :=
  existsb (fun p => String.prefix p s) prefixes.

(** [sep.join(l)]. *)
Definition join (sep : string) (l : list string) : string :=
  String.concat sep l.

(** [str.isspace] on one character (code points below 256). *)
Definition isspace (c : ascii) : bool :=
  let n := nat_of_ascii c in
  (9 <=? n) && (n <=? 13) || (28 <=? n) && (n <=? 32)
  || (n =? 133) || (n =? 160).

Fixpoint lstrip (s : string) : string :=
  match s with
  | String c s' => if isspace c then lstrip s' else s
  | EmptyString => EmptyString
  end.

(** [s.strip()]. *)
Definition strip (s : string) : string :=
  String.rev (lstrip (String.rev (lstrip s))).

(** [l[:n]] for an integer [n], negative values counting from the end. *)
Definition slice_to {A} (l : list A) (n : Z) : list A :=
  if (n <? 0)%Z then take (Z.to_nat (Z.of_nat (length l) + n)) l
  else take (Z.to_nat n) l.

(** [s.lower()], character by character (code points below 256). *)
Definition lower_char (c : ascii) : ascii :=
  let n := nat_of_ascii c in
  if (65 <=? n) && (n <=? 90)
     || (192 <=? n) && (n <=? 222) && negb (n =? 215)
  then ascii_of_nat (n + 32) else c.

Fixpoint lower (s : string) : string :=
  match s with
  | String c s' => String (lower_char c) (lower s')
  | EmptyString => EmptyString
  end.

(** [s.endswith(suffix)]. *)
Definition endswith (s suffix : string) : bool :=
  let n := String.length s in
  let m := String.length suffix in
  (m <=? n) && String.eqb (String.substring (n - m) m s) suffix.

End Py.

(* ===================================================================== *)
(** * Regular expressions *)
(* ===================================================================== *)

Module Re.

(** The constructs occurring in the two patterns of the program. *)
Inductive regex : Type :=
| Eps                              (* empty pattern *)
| Cls (f : ascii -> bool)          (* one character of a class *)
| Cat (r1 r2 : regex)              (* r1r2 *)
| Alt (r1 r2 : regex)              (* r1|r2 *)
| Opt (r : regex)                  (* r?, greedy *)
| Plus (r : regex)                 (* r+, greedy *)
| Rep (n : nat) (r : regex).       (* r{n} *)

Definition Lit (c : ascii) : regex := Cls (Ascii.eqb c).

(** Character classes. *)
Definition in_range (lo hi : ascii) (c : ascii) : bool :=
  (nat_of_ascii lo <=? nat_of_ascii c) && (nat_of_ascii c <=? nat_of_ascii hi).

Definition digit : ascii -> bool := in_range "0" "9".      (* \d *)
Definition space : ascii -> bool := Py.isspace.             (* \s *)
Definition alnum (c : ascii) : bool :=
  in_range "a" "z" c || in_range "A" "Z" c || in_range "0" "9" c.
Definition one_of (cs : list ascii) (c : ascii) : bool :=
  existsb (Ascii.eqb c) cs.

(** Backtracking matcher: [rmatch r s] lists, in the order in which the
    engine tries them, the suffixes of [s] left after a match of [r] at the
    start of [s]. *)
Fixpoint rmatch (r : regex) (s : list ascii) {struct r} : list (list ascii) :=
  match r with
  | Eps => [s]
  | Cls f => match s with
             | c :: s' => if f c then [s'] else []
             | [] => []
             end
  | Cat r1 r2 => s' ← rmatch r1 s; rmatch r2 s'
  | Alt r1 r2 => rmatch r1 s ++ rmatch r2 s
  | Opt r1 => rmatch r1 s ++ [s]
  | Plus r1 =>
      (fix more (fuel : nat) (s : list ascii) {struct fuel} : list (list ascii) :=
         s' ← rmatch r1 s;
         match fuel with
         | S k => (if bool_decide (length s' < length s) then more k s' else [])
                  ++ [s']
         | 0 => [s']
         end) (length s) s
  | Rep n r1 =>
      (fix times (n : nat) (s : list ascii) {struct n} : list (list ascii) :=
         match n with
         | 0 => [s]
         | S k => s' ← rmatch r1 s; times k s'
         end) n s
  end.

(** The leftmost match starting at the head of [s], as the matched text. *)
Definition match_at (r : regex) (s : list ascii) : option (list ascii) :=
  match rmatch r s with
  | rest :: _ => Some (take (length s - length rest) s)
  | [] => None
  end.

(** Left-to-right scan for non-overlapping matches; [skip] counts the
    characters still covered by the previous match.  Neither pattern of the
    program matches the empty string (lemmas [match_at_min_len] and
    [patterns_min_len] below), which is why nothing is tried at the end of the
    text. *)
Fixpoint scan (r : regex) (skip : nat) (s : list ascii) : list (list ascii) :=
  match s with
  | [] => []
  | _ :: s' =>
      match skip with
      | S k => scan r k s'
      | 0 => match match_at r s with
             | Some m => m :: scan r (length m - 1) s'
             | None => scan r 0 s'
             end
      end
  end.

(** [re.findall(r, text)] for a pattern without capturing groups. *)
Definition findall (r : regex) (text : string) : list string :=
  string_of_list_ascii <$> scan r 0 (list_ascii_of_string text).

(** A lower bound on the length of any match. *)
Fixpoint min_len (r : regex) : nat :=
  match r with
  | Eps => 0
  | Cls _ => 1
  | Cat r1 r2 => min_len r1 + min_len r2
  | Alt r1 r2 => min_len r1 `min` min_len r2
  | Opt _ => 0
  | Plus r1 => min_len r1
  | Rep n r1 => n * min_len r1
  end.



End Re.

(* ===================================================================== *)
(** * The program *)
(* ===================================================================== *)

Module Scraper.
Import Re.

(** ** Module-level constants (lines 21-28) *)

(** [[a-zA-Z0-9_.+-]+@[a-zA-Z0-9-]+\.[a-zA-Z0-9-.]+] *)
Definition EMAIL_REGEX : regex :=
  Cat (Plus (Cls (fun c => alnum c || one_of ["_"; "."; "+"; "-"]%char c)))
 (Cat (Lit "@")
 (Cat (Plus (Cls (fun c => alnum c || one_of ["-"]%char c)))
 (Cat (Lit ".")
      (Plus (Cls (fun c => alnum c || one_of ["-"; "."]%char c)))))).

(** [(?:(?:\+|00)?91[\s\-]?)?[6-9]\d{9}], in its three parts. *)
Definition separator (c : ascii) : bool := space c || one_of ["-"]%char c.

Definition country_code : regex :=
  Cat (Opt (Alt (Lit "+") (Cat (Lit "0") (Lit "0"))))
 (Cat (Lit "9")
 (Cat (Lit "1")
      (Opt (Cls separator)))).

Definition mobile_number : regex :=
  Cat (Cls (in_range "6" "9")) (Rep 9 (Cls digit)).

Definition PHONE_REGEX : regex := Cat (Opt country_code) mobile_number.

Definition VISITED_FILE : string := "visited_links.json".
Definition ALL_URLS_FILE : string := "all_urls.json".

(** ** Data *)

(** The dictionary returned by [scrape_page]. *)
Record PageRecord : Type := mkPage {
  url : string;
  names : list string;
  orgs : list string;
  emails : list string;
  phones : list string
}.

(** The dictionaries appended to [results]; the fields are the keys
    ["Person Name"], ["Designation"], ["Company"], ["Email(s)"],
    ["Phone(s)"] and ["Source URL"], [None] being Python's [None]. *)
Record ContactRecord : Type := mkContact {
  Person_Name : option string;
  Designation : option string;
  Company : option string;
  Emails : option string;
  Phones : option string;
  Source_URL : string
}.

(** What a run lets an observer see: the [st.info] messages, the
    [logging.error] records, the pauses and, as ghost entries, the calls of
    [scrape_page] with the value they returned. *)
Inductive event : Type :=
| InfoCrawling (base_url : string)
| InfoSkipping (page : string)
| InfoScraping (page : string)
| LogError (context url : string)
| ScrapePage (page : string) (returned : option PageRecord)
| Sleep (seconds : nat).

(** ** The platform

    Everything the program imports and does not define: the network, the
    HTML parser, the entity recogniser and [urllib.parse].  A call that
    raises yields [None]. *)
Record Platform : Type := mkPlatform {
  World : Type;
  Content : Type;
  (* requests.get(url, headers=HEADERS, timeout=10).content *)
  requests_get : string -> World -> option Content * World;
  (* [a['href'] for a in BeautifulSoup(content, "html.parser").find_all("a", href=True)] *)
  soup_hrefs : Content -> option (list string);
  (* BeautifulSoup(content, "html.parser").get_text(separator=" ", strip=True) *)
  soup_text : Content -> option string;
  (* [(ent.text, ent.label_) for ent in nlp(text).ents] *)
  nlp_ents : string -> option (list (string * string));
  (* urlparse(url).netloc *)
  urlparse_netloc : string -> option string;
  (* urljoin(base, url) *)
  urljoin : string -> string -> option string
}.

Section Program.
Variable P : Platform.

(** The module's globals, the two JSON files, the network and the
    observations made so far. *)
Record State : Type := mkState {
  visited_links : gset string;
  all_urls : gset string;
  files : gmap string (list string);
  world : World P;
  trace : list event
}.

(** State-passing computations. *)
Definition M (A : Type) : Type := State -> A * State.

#[global] Instance M_ret : MRet M := fun A a s => (a, s).
#[global] Instance M_bind : MBind M :=
  fun A B f m s => let '(a, s') := m s in f a s'.

Definition emit (e : event) : M unit := fun s =>
  (tt, mkState (visited_links s) (all_urls s) (files s) (world s)
               (trace s ++ [e])).

Definition http_get (u : string) : M (option (Content P)) := fun s =>
  let '(r, w) := requests_get P u (world s) in
  (r, mkState (visited_links s) (all_urls s) (files s) w (trace s)).

Definition set_visited (v : gset string) : M unit := fun s =>
  (tt, mkState v (all_urls s) (files s) (world s) (trace s)).

Definition set_all_urls (a : gset string) : M unit := fun s =>
  (tt, mkState (visited_links s) a (files s) (world s) (trace s)).

Definition get_state : M State := fun s => (s, s).

(** [for x in l: acc = body(x, acc)]. *)
Fixpoint for_ {A R} (l : list A) (body : A -> R -> M R) (acc : R) : M R :=
  match l with
  | [] => mret acc
  | x :: l' => acc' ← body x acc; for_ l' body acc'
  end.

(** ** Persistence (lines 31-39) *)

Definition load_json (file_path : string) : M (gset string) := fun s =>
  (match files s !! file_path with
   | Some l => list_to_set l
   | None => ∅
   end, s).

Definition save_json (data_set : gset string) (file_path : string) : M unit :=
  fun s =>
    (tt, mkState (visited_links s) (all_urls s)
                 (<[file_path := elements data_set]> (files s))
                 (world s) (trace s)).

(** ** [search_urls] (lines 44-55) *)

(** Line 51, on the lower-cased host. *)
Definition indian_domain (domain : string) : bool :=
  Py.endswith domain ".in" || Py.contains "india" domain.

(** The [for r in ddgs.text(...)] loop over the [href]s of the results:
    [urls.insert(0, url)] or [urls.append(url)].  [None] when [urlparse]
    raises, which nothing catches. *)
Fixpoint rank_urls (hrefs urls : list string) : option (list string) :=
  match hrefs with
  | [] => Some urls
  | url :: rest =>
      domain ← Py.lower <$> urlparse_netloc P url;
      if indian_domain domain then rank_urls rest (url :: urls)
      else rank_urls rest (urls ++ [url])
  end.

(** [ddgs_text query max_results] stands for
    [[r['href'] for r in DDGS().text(query, max_results=max_results)]], a
    request to the search engine that may raise. *)
Definition search_urls
    (ddgs_text : string -> Z -> World P -> option (list string) * World P)
    (keyword country : string) (max_results : Z) : M (option (list string)) :=
  fun s =>
    let '(r, w) := ddgs_text (keyword +:+ " " +:+ country) max_results (world s) in
    (hrefs ← r; urls ← rank_urls hrefs []; Some (Py.slice_to urls max_results),
     mkState (visited_links s) (all_urls s) (files s) w (trace s)).

(** ** [get_links] (lines 57-72) *)

(** The [for a_tag in ...] loop.  The boolean tells whether [urljoin]
    raised, which ends the loop with the links gathered so far. *)
Fixpoint collect_links (base_url domain : string) (max_pages : Z)
    (hrefs : list string) (links : gset string) : gset string * bool :=
  match hrefs with
  | [] => (links, false)
  | h :: rest =>
      match urljoin P base_url h with
      | None => (links, true)
      | Some href =>
          if Py.contains domain href then
            let links' := {[href]} ∪ links in
            if (max_pages <=? Z.of_nat (size links'))%Z
            then (links', false)                                (* break *)
            else collect_links base_url domain max_pages rest links'
          else collect_links base_url domain max_pages rest links
      end
  end.

Definition get_links (base_url : string) (max_pages : Z) : M (list string) :=
  response ← http_get base_url;
  match (content ← response;
         hrefs ← soup_hrefs P content;
         domain ← urlparse_netloc P base_url;
         Some (hrefs, domain)) with
  | Some (hrefs, domain) =>
      let '(links, raised) :=
        collect_links base_url domain max_pages hrefs ∅ in
      _ ← (if raised : bool then emit (LogError "Error getting links from" base_url)
           else mret tt);
      mret (elements links)
  | None =>
      _ ← emit (LogError "Error getting links from" base_url);
      mret (elements (∅ : gset string))
  end.

(** ** [extract_entities] (lines 74-78) *)

Definition with_label (label : string) (ents : list (string * string))
  : list string :=
  (fun ent => Py.strip ent.1) <$>
    List.filter (fun ent => String.eqb ent.2 label) ents.

Definition extract_entities (text : string)
  : option (list string * list string) :=
  ents ← nlp_ents P text;
  Some (with_label "PERSON" ents, with_label "ORG" ents).

(** ** [scrape_page] (lines 80-98) *)

Definition page_record (url : string) (text : string) : option PageRecord :=
  let emails := elements (list_to_set (findall EMAIL_REGEX text) : gset string) in
  let emails :=
    List.filter
      (fun email => negb (Py.startswith email ["noreply"; "no-reply"; "donotreply"]))
      emails in
  let phones := elements (list_to_set (findall PHONE_REGEX text) : gset string) in
  '(names, orgs) ← extract_entities text;
  Some (mkPage url names orgs emails phones).

Definition scrape_page (url : string) : M (option PageRecord) :=
  response ← http_get url;
  let data := content ← response; text ← soup_text P content;
              page_record url text in
  _ ← (if data is None then emit (LogError "Error scraping" url) else mret tt);
  _ ← emit (ScrapePage url data);
  mret data.

(** ** [crawl_and_scrape] (lines 100-128) *)

(** Lines 115-125: the records appended for one page. *)
Definition contact_records (data : PageRecord) : list ContactRecord :=
  (fun i =>
     {| Person_Name := names data !! i;
        Designation := None;
        Company := head (orgs data);
        Emails := if emails data is [] then None
                  else Some (Py.join ", " (emails data));
        Phones := if phones data is [] then None
                  else Some (Py.join ", " (phones data));
        Source_URL := url data |})
  <$> seq 0 (length (names data) `max` 1).

(** Lines 108-126: the body of the inner loop. *)
Definition process_page (page : string) (results : list ContactRecord)
  : M (list ContactRecord) :=
  s ← get_state;
  if bool_decide (page ∈ visited_links s) then
    _ ← emit (InfoSkipping page);
    mret results                                             (* continue *)
  else
    _ ← emit (InfoScraping page);
    data ← scrape_page page;
    results' ← match data with
               | Some d =>
                   s ← get_state;
                   _ ← set_visited ({[page]} ∪ visited_links s);
                   mret (results ++ contact_records d)
               | None => mret results
               end;
    _ ← emit (Sleep 1);
    mret results'.

(** Lines 104-107: the body of the outer loop. *)
Definition crawl_site (max_pages : Z) (base_url : string)
    (results : list ContactRecord) : M (list ContactRecord) :=
  _ ← emit (InfoCrawling base_url);
  pages ← get_links base_url max_pages;
  for_ (base_url :: pages) process_page results.

Definition crawl_and_scrape (url_batch : list string) (max_pages : Z)
  : M (list ContactRecord) :=
  results ← for_ url_batch (crawl_site max_pages) [];
  s ← get_state;
  _ ← save_json (visited_links s) VISITED_FILE;
  mret results.

(** ** The reset button of [main] (lines 169-173) *)

Definition reset : M unit :=
  _ ← set_visited ∅;
  _ ← set_all_urls ∅;
  _ ← save_json ∅ VISITED_FILE;
  save_json ∅ ALL_URLS_FILE.

End Program.

(** ** [deduplicate] (lines 130-138) *)

Definition signature (item : ContactRecord) : option string * option string :=
  (Emails item, Phones item).

(** One iteration of the loop, on the pair of [seen] and [unique]. *)
Definition dedup_step
    (st : gset (option string * option string) * list ContactRecord)
    (item : ContactRecord)
  : gset (option string * option string) * list ContactRecord :=
  let '(seen, unique) := st in
  let key := signature item in
  if bool_decide (key ∈ seen) then (seen, unique)
  else ({[key]} ∪ seen, unique ++ [item]).

Definition deduplicate (results : list ContactRecord) : list ContactRecord :=
  (foldl dedup_step (∅, []) results).2.

(** ** Batch selection in [main] (lines 189-196) *)

Definition remaining_urls (all_urls visited_links : gset string) : list string :=
  elements (all_urls ∖ visited_links).

(** [None] is the early [return] taken when nothing is left to crawl. *)
Definition select_batch (all_urls visited_links : gset string)
    (num_websites : Z) : option (list string) :=
  match remaining_urls all_urls visited_links with
  | [] => None
  | remaining => Some (Py.slice_to remaining num_websites)
  end.


(** ** [clean_excel_string] (lines 140-143) *)

(** The class [[\x00-\x1F\x7F-\x9F]]. *)
Definition control (c : ascii) : bool :=
  let n := nat_of_ascii c in
  (n <=? 31) || (127 <=? n) && (n <=? 159).

(** [re.sub(r"[\x00-\x1F\x7F-\x9F]", "", val)]: the characters of the class
    are deleted. *)
Fixpoint strip_controls (val : string) : string :=
  match val with
  | String c val' =>
      if control c then strip_controls val' else String c (strip_controls val')
  | EmptyString => EmptyString
  end.

(** A value is a string or [None], which is not a string and is returned as
    it is. *)
Definition clean_excel_string (val : option string) : option string :=
  match val with
  | Some text => Some (strip_controls text)
  | None => None
  end.

(** ** The table of [save_to_excel] and [save_to_csv] (lines 146-148, 155-157)

    The cells handed to the writer, row by row and in the order of the keys:
    [fillna("None")] and then [applymap(clean_excel_string)].  The writers
    themselves are not modelled. *)
Definition cells (item : ContactRecord) : list (option string) :=
  [Person_Name item; Designation item; Company item; Emails item; Phones item;
   Some (Source_URL item)].

Definition fillna (value : string) (cell : option string) : option string :=
  match cell with
  | Some text => Some text
  | None => Some value
  end.

Definition export_table (data : list ContactRecord) : list (list (option string)) :=
  (fun item => clean_excel_string <$> (fillna "None" <$> cells item)) <$> data.

(** ** [main] (lines 162-222) *)

(** How a run of [main] ends, by the message it shows. *)
Inductive outcome : Type :=
| Idle                                    (* the crawl button was not pressed *)
| KeywordMissing                          (* "Please enter a keyword to search." *)
| SearchRaised                            (* [search_urls] raised *)
| NoNewUrls                               (* "No new URLs to crawl. ..." *)
| NoContacts                              (* "No contacts found. ..." *)
| Found (deduped : list ContactRecord).   (* the table and the downloads *)

Section Main.
Variable P : Platform.
Variable ddgs_text : string -> Z -> World P -> option (list string) * World P.

(** Lines 184-187: the pool is searched for only when it is empty.  The
    boolean tells whether the run goes on. *)
Definition ensure_all_urls (keyword : string) : M P bool :=
  s ← get_state P;
  if bool_decide (all_urls P s = ∅) then
    urls ← search_urls P ddgs_text keyword "India" 100;
    match urls with
    | Some urls =>
        _ ← set_all_urls P (list_to_set urls);
        _ ← save_json P (list_to_set urls) ALL_URLS_FILE;
        mret true
    | None => mret false
    end
  else mret true.

(** The widgets are the arguments: the two buttons, the keyword and the two
    numbers. *)
Definition main (reset_button crawl_button : bool) (keyword : string)
    (num_websites max_pages : Z) : M P outcome :=
  _ ← (if reset_button then reset P else mret tt);
  if crawl_button && negb (String.eqb keyword "") then
    searched ← ensure_all_urls keyword;
    if searched : bool then
      s ← get_state P;
      match select_batch (all_urls P s) (visited_links P s) num_websites with
      | None => mret NoNewUrls
      | Some batch =>
          data ← crawl_and_scrape P batch max_pages;
          if data is [] then mret NoContacts
          else mret (Found (deduplicate data))
      end
    else mret SearchRaised
  else if crawl_button then mret KeywordMissing
  else mret Idle.

End Main.

End Scraper.

(* ===================================================================== *)
(** * A concrete platform *)
(* ===================================================================== *)

(** A three-page web on which the statements below are exercised.  A page
    is its list of [href] attributes and its visible text; the network is
    stateless, [example.in/down] cannot be fetched, and every hyperlink is an
    absolute URL in normal form, which [urljoin] returns as it is. *)
Module Demo.
Import Scraper.

Definition page : Type := list string * string.

Definition home : string := "https://example.in".
Definition about : string := "https://example.in/about".
Definition down : string := "https://example.in/down".
Definition foreign : string := "https://evil.example/?ref=example.in".

Definition web (u : string) : option page :=
  if String.eqb u home then
    Some ([about; foreign; down; about],
          "Contact Jane Doe at jane@example.in or call 9876543210")
  else if String.eqb u about then
    Some ([home], "Example Pvt Ltd: reach us at noreply@example.in")
  else None.

(** A recogniser that knows one person and one organisation. *)
Definition recogniser (text : string) : option (list (string * string)) :=
  Some ((if Py.contains "Jane Doe" text then [(" Jane Doe ", "PERSON")] else [])
        ++ (if Py.contains "Example Pvt Ltd" text
            then [("Example Pvt Ltd", "ORG")] else [])).

(** [urlparse(u).netloc] for URLs written [scheme://authority...]: the text
    between the [//] that follows the scheme and the next [/], [?] or [#]. *)
Fixpoint authority (s : string) : string :=
  match s with
  | String c s' =>
      if Re.one_of ["/"; "?"; "#"]%char c then EmptyString
      else String c (authority s')
  | EmptyString => EmptyString
  end.

Definition netloc (u : string) : option string :=
  let rest := match String.index 0 ":" u with
              | Some i => String.substring (S i) (String.length u - S i) u
              | None => u
              end in
  Some (if String.prefix "//" rest
        then authority (String.substring 2 (String.length rest - 2) rest)
        else EmptyString).

Definition platform : Platform :=
  {| World := unit;
     Content := page;
     requests_get := fun u w => (web u, w);
     soup_hrefs := fun c => Some c.1;
     soup_text := fun c => Some c.2;
     nlp_ents := recogniser;
     urlparse_netloc := netloc;
     urljoin := fun _ h => Some h |}.

Definition start (visited : gset string) : State platform :=
  mkState platform visited ∅ ∅ tt [].

(** A search engine with five answers to every query. *)
Definition hits : list string :=
  ["https://a.example/x"; home; "https://c.example"; "https://www.INDIA-info.org";
   "https://d.example/?q=india"].

Definition search (query : string) (max_results : Z) (w : unit)
  : option (list string) * unit :=
  (Some hits, w).

End Demo.

(* ===================================================================== *)
(** * Observing a run *)
(* ===================================================================== *)

(** The notions in which the properties of the crawl are stated. *)
Module Run.
Import Scraper.

(** What [scrape_page url] returns when the network is in state [w]. *)
Definition fetched (P : Platform) (url : string) (w : World P)
  : option PageRecord :=
  content ← (requests_get P url w).1;
  text ← soup_text P content;
  page_record P url text.

(** The set [visited_links] after the observations [t], when it was [v]
    before them: each call of [scrape_page] that returned a record marks its
    page (line 114). *)
Definition visited_after (v : gset string) (t : list event) : gset string :=
  foldl (fun v e => match e with
                    | ScrapePage page (Some _) => {[page]} ∪ v
                    | _ => v
                    end) v t.

(** Every call of [scrape_page] in [t] is for a page that is not in
    [visited_links] when the call is made. *)
Fixpoint well_guarded (v : gset string) (t : list event) : Prop :=
  match t with
  | [] => True
  | e :: t' =>
      match e with
      | ScrapePage page _ => page ∉ v
      | _ => True
      end /\ well_guarded (visited_after v [e]) t'
  end.

(** What a computation may do to the trace and to [visited_links]: extend
    the former, and change the latter only as the calls of [scrape_page]
    it made dictate, each of them on a page not visited at that time. *)
Definition orderly (P : Platform) {A} (m : M P A) : Prop :=
  forall s, exists t,
    trace P (m s).2 = trace P s ++ t /\
    visited_links P (m s).2 = visited_after (visited_links P s) t /\
    well_guarded (visited_links P s) t.

(** What [get_links base_url] has to work with when the network is in state
    [w]: the hyperlinks of the page and the host of the base URL, or nothing
    when one of lines 60-62 raises. *)
Definition page_links (P : Platform) (base_url : string) (w : World P)
  : option (list string * string) :=
  content ← (requests_get P base_url w).1;
  hrefs ← soup_hrefs P content;
  domain ← urlparse_netloc P base_url;
  Some (hrefs, domain).

(** Line 51 on a URL: whether [search_urls] moves it to the front. *)
Definition indian_url (P : Platform) (url : string) : bool :=
  match urlparse_netloc P url with
  | Some domain => indian_domain (Py.lower domain)
  | None => false
  end.

(** The pages for which [scrape_page] returned a record, in order. *)
Definition successes (t : list event) : list string :=
  t ≫= fun e => match e with
                | ScrapePage page (Some _) => [page]
                | _ => []
                end.

(** The number of calls of [scrape_page], and the number of pauses. *)
Definition attempts (t : list event) : nat :=
  length (List.filter (fun e => if e is ScrapePage _ _ then true else false) t).

Definition pauses (t : list event) : nat :=
  length (List.filter (fun e => if e is Sleep _ then true else false) t).

(** A computation leaves the component [f] of the state as it is. *)
Definition preserves {P A X} (f : State P -> X) (m : M P A) : Prop :=
  forall s, f (m s).2 = f s.

(** A computation only adds to the trace, and what it adds satisfies [Q]. *)
Definition emits {P A} (Q : list event -> Prop) (m : M P A) : Prop :=
  forall s, exists t, trace P (m s).2 = trace P s ++ t /\ Q t.

(** A loop body that only appends to [results], each record being without
    designation and coming from a page that enters [visited_links] with it;
    the records appended are those of [ds], one page record per page that was
    scraped with success. *)
Definition harvests {P} (body : list ContactRecord -> M P (list ContactRecord))
  : Prop :=
  forall acc s, exists ds t,
    (body acc s).1 = acc ++ (ds ≫= contact_records) /\
    trace P (body acc s).2 = trace P s ++ t /\
    url <$> ds = successes t /\
    visited_links P (body acc s).2
      = visited_links P s ∪ list_to_set (successes t) /\
    forall page, page ∈ successes t -> page ∉ visited_links P s.

(** The first record of [l] with signature [k]. *)
Definition first_with (k : option string * option string)
    (l : list ContactRecord) : option ContactRecord :=
  List.find (fun r => bool_decide (signature r = k)) l.

End Run.

(* ===================================================================== *)
(** * Facts about the matcher *)
(* ===================================================================== *)

Module ReFacts.
Import Re.

Lemma bind_nil {A B} (f : A -> list B) (l : list A) :
  (forall x, x ∈ l -> f x = []) -> l ≫= f = [].
Proof.
  induction l as [|x l IH]; intros H; [done|].
  rewrite bind_cons, (H x) by left. apply IH. intros y Hy. apply H. by right.
Qed.

(** A match of [r] consumes at least [min_len r] characters. *)
Lemma rmatch_min_len r : forall s s',
  s' ∈ rmatch r s -> length s' + min_len r <= length s.
Proof.
  induction r as [|f|r1 IH1 r2 IH2|r1 IH1 r2 IH2|r1 IH1|r1 IH1|n r1 IH1];
    intros s s'; simpl.
  - intros ->%list_elem_of_singleton. lia.
  - destruct s as [|c s0]; [by intros ?%elem_of_nil|].
    destruct (f c); [|by intros ?%elem_of_nil].
    intros ->%list_elem_of_singleton. simpl. lia.
  - intros (s1 & H2 & H1)%list_elem_of_bind.
    apply IH1 in H1. apply IH2 in H2. lia.
  - intros [H|H]%elem_of_app; [apply IH1 in H|apply IH2 in H]; lia.
  - intros [H| ->%list_elem_of_singleton]%elem_of_app; [apply IH1 in H|]; lia.
  - generalize (length s) at 1. intros fuel. revert s s'.
    induction fuel as [|k IHk]; intros s s' (s1 & H2 & H1)%list_elem_of_bind.
    + apply list_elem_of_singleton in H2 as ->. by apply IH1.
    + apply IH1 in H1.
      apply elem_of_app in H2 as [H2| ->%list_elem_of_singleton]; [|lia].
      case_bool_decide; [|by apply elem_of_nil in H2].
      apply IHk in H2. lia.
  - revert s s'. induction n as [|k IHk]; intros s s'.
    + intros ->%list_elem_of_singleton. lia.
    + intros (s1 & H2 & H1)%list_elem_of_bind.
      apply IH1 in H1. apply IHk in H2. lia.
Qed.

(** What is left after a match is a suffix of the text. *)
Lemma rmatch_suffix r : forall s s', s' ∈ rmatch r s -> s' `suffix_of` s.
Proof.
  induction r as [|f|r1 IH1 r2 IH2|r1 IH1 r2 IH2|r1 IH1|r1 IH1|n r1 IH1];
    intros s s'; simpl.
  - by intros ->%list_elem_of_singleton.
  - destruct s as [|c s0]; [by intros ?%elem_of_nil|].
    destruct (f c); [|by intros ?%elem_of_nil].
    intros ->%list_elem_of_singleton. by apply suffix_cons_r.
  - intros (s1 & H2 & H1)%list_elem_of_bind.
    etrans; [by apply IH2|by apply IH1].
  - intros [H|H]%elem_of_app; auto.
  - intros [H| ->%list_elem_of_singleton]%elem_of_app; auto.
  - generalize (length s) at 1. intros fuel. revert s s'.
    induction fuel as [|k IHk]; intros s s' (s1 & H2 & H1)%list_elem_of_bind.
    + apply list_elem_of_singleton in H2 as ->. by apply IH1.
    + apply IH1 in H1.
      apply elem_of_app in H2 as [H2| ->%list_elem_of_singleton]; [|done].
      case_bool_decide; [|by apply elem_of_nil in H2].
      apply IHk in H2. by etrans.
  - revert s s'. induction n as [|k IHk]; intros s s'.
    + by intros ->%list_elem_of_singleton.
    + intros (s1 & H2 & H1)%list_elem_of_bind.
      apply IH1 in H1. apply IHk in H2. by etrans.
Qed.

(** [c{n}] for a class [c]: the next [n] characters, all of the class. *)
Lemma rmatch_rep_cls f n : forall s,
  rmatch (Rep n (Cls f)) s =
  if bool_decide (n <= length s) && forallb f (take n s)
  then [drop n s] else [].
Proof.
  simpl. induction n as [|k IHk]; intros s.
  - by rewrite take_0, drop_0.
  - destruct s as [|c s0]; [done|]. simpl.
    destruct (f c); simpl.
    + rewrite app_nil_r, IHk.
      do 2 case_bool_decide; try lia; done.
    + by rewrite andb_false_r.
Qed.

(** After a match that covers the rest of the text the scan is over. *)
Lemma scan_skip_all r : forall s k, length s <= k -> scan r k s = [].
Proof.
  induction s as [|c s IH]; intros k Hk; [done|].
  simpl in *. destruct k as [|k]; [lia|]. apply IH. lia.
Qed.

Lemma scan_whole r c s :
  head (rmatch r (c :: s)) = Some [] ->
  scan r 0 (c :: s) = [c :: s].
Proof.
  intros Hhd.
  assert (match_at r (c :: s) = Some (c :: s)) as Hm.
  { unfold match_at. destruct (rmatch r (c :: s)) as [|rest l]; [done|].
    injection Hhd as ->. by rewrite take_ge by (simpl; lia). }
  change (scan r 0 (c :: s)) with
    (match match_at r (c :: s) with
     | Some m => m :: scan r (length m - 1) s
     | None => scan r 0 s
     end).
  rewrite Hm. f_equal. apply scan_skip_all. simpl. lia.
Qed.

(** A match is at least [min_len r] characters long; in particular the two
    patterns of the program, for which the bound is positive, never match the
    empty string. *)
Lemma match_at_min_len r s m :
  match_at r s = Some m -> min_len r <= length m.
Proof.
  unfold match_at. destruct (rmatch r s) as [|rest l] eqn:E; [done|].
  intros [= <-].
  assert (rest ∈ rmatch r s) as H%rmatch_min_len by (rewrite E; left).
  rewrite length_take. lia.
Qed.

Lemma patterns_min_len :
  min_len Scraper.EMAIL_REGEX = 5 /\ min_len Scraper.PHONE_REGEX = 10.
Proof. split; reflexivity. Qed.

(** The matcher on two texts, with the lists CPython's [re.findall] returns
    for them. *)
Example findall_phone_sample :
  findall Scraper.PHONE_REGEX
    "call 9876543210 +91-9876543210, 00919876543210 5876543210 919876543210 9198765432"
  = ["9876543210"; "+91-9876543210"; "00919876543210"; "919876543210";
     "9198765432"].
Proof. vm_compute. reflexivity. Qed.

Example findall_email_sample :
  findall Scraper.EMAIL_REGEX
    "Contact Jane Doe at jane@example.in or call noreply@x.co.in. a@b-c.d..e"
  = ["jane@example.in"; "noreply@x.co.in."; "a@b-c.d..e"].
Proof. vm_compute. reflexivity. Qed.

End ReFacts.

(* ===================================================================== *)
(** * The phone pattern *)
(* ===================================================================== *)

Module PhoneFacts.
Import Re Scraper ReFacts.

Lemma rmatch_too_short r s : length s < min_len r -> rmatch r s = [].
Proof.
  intros Hlt. destruct (rmatch r s) as [|s' l] eqn:E; [done|].
  assert (s' ∈ rmatch r s) as H%rmatch_min_len by (rewrite E; left). lia.
Qed.

Lemma scan_too_short r : forall s, length s < min_len r -> scan r 0 s = [].
Proof.
  induction s as [|c s IH]; intros Hlt; [done|].
  simpl. unfold match_at. rewrite rmatch_too_short by done.
  apply IH. simpl in Hlt. lia.
Qed.

Lemma list_ascii_of_string_app a b :
  list_ascii_of_string (a +:+ b) = list_ascii_of_string a ++ list_ascii_of_string b.
Proof. induction a as [|c a IH]; simpl; [done|]. by rewrite IH. Qed.

Lemma length_list_ascii_of_string a :
  length (list_ascii_of_string a) = String.length a.
Proof. induction a as [|c a IH]; simpl; [done|]. by rewrite IH. Qed.

Lemma findall_whole r s :
  s ≠ EmptyString ->
  head (rmatch r (list_ascii_of_string s)) = Some [] ->
  findall r s = [s].
Proof.
  intros Hne Hhd. unfold findall.
  destruct (list_ascii_of_string s) as [|c l] eqn:E.
  { destruct s; [done|discriminate]. }
  rewrite scan_whole by done. rewrite <- E. simpl.
  by rewrite string_of_list_ascii_of_string.
Qed.

Lemma digit_not_separator c : digit c = true -> separator c = false.
Proof. destruct c as [[] [] [] [] [] [] [] []]; done. Qed.

Lemma low_digit_not_mobile c :
  in_range "0" "5" c = true -> in_range "6" "9" c = false.
Proof. destruct c as [[] [] [] [] [] [] [] []]; done. Qed.

(** The ten digits of a mobile number are matched, and nothing is left. *)
Lemma mobile_number_ten c ds :
  length ds = 9 -> forallb digit ds = true -> in_range "6" "9" c = true ->
  rmatch mobile_number (c :: ds) = [[]].
Proof.
  intros Hlen Hds Hc. unfold mobile_number.
  change (rmatch (Cat (Cls (in_range "6" "9")) (Rep 9 (Cls digit))) (c :: ds))
    with (s' ← (if in_range "6" "9" c then [ds] else []);
          rmatch (Rep 9 (Cls digit)) s').
  rewrite Hc, bind_singleton, rmatch_rep_cls.
  rewrite take_ge, drop_ge, Hds by lia.
  by rewrite bool_decide_eq_true_2 by lia.
Qed.

(** The country code cannot be read off the digits of the number itself. *)
Lemma country_code_then_mobile_short s :
  length s < 12 -> rmatch country_code s ≫= rmatch mobile_number = [].
Proof.
  intros Hlen. apply bind_nil. intros s' Hs'%rmatch_min_len.
  apply rmatch_too_short. simpl in *. lia.
Qed.

Lemma phone_unprefixed c ds :
  length ds = 9 -> forallb digit ds = true -> in_range "6" "9" c = true ->
  rmatch PHONE_REGEX (c :: ds) = [[]].
Proof.
  intros Hlen Hds Hc. unfold PHONE_REGEX.
  change (rmatch (Cat (Opt country_code) mobile_number) (c :: ds))
    with ((rmatch country_code (c :: ds) ++ [c :: ds]) ≫= rmatch mobile_number).
  rewrite bind_app, country_code_then_mobile_short by (simpl; lia).
  by rewrite bind_singleton, mobile_number_ten.
Qed.

Lemma phone_low_lead c ds :
  length ds = 9 -> in_range "0" "5" c = true ->
  rmatch PHONE_REGEX (c :: ds) = [].
Proof.
  intros Hlen Hc%low_digit_not_mobile. unfold PHONE_REGEX.
  change (rmatch (Cat (Opt country_code) mobile_number) (c :: ds))
    with ((rmatch country_code (c :: ds) ++ [c :: ds]) ≫= rmatch mobile_number).
  rewrite bind_app, country_code_then_mobile_short by (simpl; lia).
  rewrite bind_singleton. simpl. by rewrite Hc.
Qed.

(** After the country code, the optional separator and then the number. *)
Lemma separator_then_mobile sep c ds :
  length ds = 9 -> forallb digit ds = true -> in_range "6" "9" c = true ->
  digit c = true ->
  (sep = [] \/ exists c', sep = [c'] /\ separator c' = true) ->
  head (rmatch (Opt (Cls separator)) (sep ++ c :: ds) ≫= rmatch mobile_number)
  = Some [].
Proof.
  intros Hlen Hds Hc Hd [->|(c' & -> & Hc')].
  - change (rmatch (Opt (Cls separator)) ([] ++ c :: ds))
      with ((if separator c then [ds] else []) ++ [c :: ds]).
    rewrite digit_not_separator by done.
    by rewrite app_nil_l, bind_singleton, mobile_number_ten.
  - change (rmatch (Opt (Cls separator)) ([c'] ++ c :: ds))
      with ((if separator c' then [c :: ds] else []) ++ [c' :: c :: ds]).
    rewrite Hc'. simpl app. by rewrite bind_cons, mobile_number_ten.
Qed.

Lemma country_code_plus rest :
  rmatch country_code ("+" :: "9" :: "1" :: rest)%char
  = rmatch (Opt (Cls separator)) rest.
Proof. cbn. by rewrite !app_nil_r. Qed.

Lemma country_code_zeros rest :
  rmatch country_code ("0" :: "0" :: "9" :: "1" :: rest)%char
  = rmatch (Opt (Cls separator)) rest.
Proof. cbn. by rewrite !app_nil_r. Qed.

Lemma head_app_Some {A} (l l' : list A) x :
  head l = Some x -> head (l ++ l') = Some x.
Proof. by destruct l. Qed.

Lemma phone_prefixed cc sep c ds :
  length ds = 9 -> forallb digit ds = true -> in_range "6" "9" c = true ->
  digit c = true ->
  cc = "+91" \/ cc = "0091" ->
  (sep = [] \/ exists c', sep = [c'] /\ separator c' = true) ->
  head (rmatch PHONE_REGEX (list_ascii_of_string cc ++ sep ++ c :: ds)) = Some [].
Proof.
  intros Hlen Hds Hc Hd Hcc Hsep.
  pose proof (separator_then_mobile sep c ds Hlen Hds Hc Hd Hsep) as H.
  unfold PHONE_REGEX.
  change (rmatch (Cat (Opt country_code) mobile_number) ?s)
    with ((rmatch country_code s ++ [s]) ≫= rmatch mobile_number).
  rewrite bind_app. apply head_app_Some.
  destruct Hcc as [-> | ->]; simpl list_ascii_of_string; simpl app.
  - by rewrite country_code_plus.
  - by rewrite country_code_zeros.
Qed.

(** C3.  A string of ten digits whose first digit is 6 to 9 is matched in
    full by the phone pattern, alone or preceded by [+91] or [0091] and an
    optional separator (a whitespace character or a hyphen); from a string of
    ten digits whose first digit is 0 to 5 no phone is extracted. *)
Theorem phone_pattern_mobile_numbers (d : string) :
  String.length d = 10 ->
  forallb digit (list_ascii_of_string d) = true ->
  (forall c d', d = String c d' -> in_range "6" "9" c = true ->
     findall PHONE_REGEX d = [d] /\
     forall cc sep,
       cc = "+91" \/ cc = "0091" ->
       (sep = "" \/ exists c', sep = String c' "" /\ separator c' = true) ->
       findall PHONE_REGEX (cc +:+ sep +:+ d) = [cc +:+ sep +:+ d]) /\
  (forall c d', d = String c d' -> in_range "0" "5" c = true ->
     findall PHONE_REGEX d = [] /\
     forall P url data, page_record P url d = Some data -> phones data = []).
Proof.
  intros Hlen Hdig. split; intros c d' -> Hc.
  - simpl in Hlen, Hdig. apply andb_true_iff in Hdig as [Hd Hds].
    assert (length (list_ascii_of_string d') = 9) as Hl
      by (rewrite length_list_ascii_of_string; lia).
    split.
    + apply findall_whole; [done|]. simpl list_ascii_of_string.
      by rewrite phone_unprefixed.
    + intros cc sep Hcc Hsep. apply findall_whole.
      { by destruct Hcc as [-> | ->]. }
      rewrite !list_ascii_of_string_app.
      apply (phone_prefixed cc (list_ascii_of_string sep) c
               (list_ascii_of_string d')); try done.
      destruct Hsep as [-> | (c' & -> & Hc')]; [by left|right]. by exists c'.
  - assert (findall PHONE_REGEX (String c d') = []) as Hnone.
    { unfold findall. simpl list_ascii_of_string.
      change (scan PHONE_REGEX 0 (c :: list_ascii_of_string d')) with
        (match match_at PHONE_REGEX (c :: list_ascii_of_string d') with
         | Some m => m :: scan PHONE_REGEX (length m - 1) (list_ascii_of_string d')
         | None => scan PHONE_REGEX 0 (list_ascii_of_string d')
         end).
      unfold match_at. rewrite phone_low_lead; try done.
      + rewrite scan_too_short; [done|].
        rewrite length_list_ascii_of_string. simpl in *. lia.
      + rewrite length_list_ascii_of_string. simpl in Hlen. lia. }
    split; [done|]. intros P url data. unfold page_record. rewrite Hnone.
    destruct (extract_entities P (String c d')) as [[ns os]|]; [|done].
    simpl. intros [= <-]. simpl. apply elements_empty.
Qed.

Lemma phone_pattern_mobile_numbers_witness :
  findall PHONE_REGEX "9876543210" = ["9876543210"] /\
  findall PHONE_REGEX "+91-9876543210" = ["+91-9876543210"] /\
  findall PHONE_REGEX "5876543210" = [].
Proof.
  destruct (phone_pattern_mobile_numbers "9876543210" eq_refl eq_refl)
    as [Hhigh _].
  destruct (Hhigh _ _ eq_refl eq_refl) as [H1 H2].
  destruct (phone_pattern_mobile_numbers "5876543210" eq_refl eq_refl)
    as [_ Hlow].
  destruct (Hlow _ _ eq_refl eq_refl) as [H3 _].
  split; [exact H1|split; [|exact H3]].
  apply (H2 "+91" "-"); [by left|right]. by exists "-"%char.
Defined.

End PhoneFacts.

(* ===================================================================== *)
(** * One page *)
(* ===================================================================== *)

Module PageFacts.
Import Re Scraper Run.

Section WithPlatform.
Variable P : Platform.

(** [scrape_page] in one step. *)
Lemma scrape_page_unfold url (s : State P) :
  scrape_page P url s =
  let data := fetched P url (world P s) in
  (data,
   mkState P (visited_links P s) (all_urls P s) (files P s)
     (requests_get P url (world P s)).2
     (trace P s ++ (if data is None then [LogError "Error scraping" url] else [])
                 ++ [ScrapePage url data])).
Proof.
  unfold scrape_page, fetched, http_get, mbind, M_bind, mret, M_ret, emit.
  destruct (requests_get P url (world P s)) as [r w]. simpl.
  match goal with
  | |- context [option_bind ?A ?B ?f r] =>
      destruct (option_bind A B f r) as [d|]
  end; simpl; [done|].
  by rewrite <- app_assoc.
Qed.

(** The inner loop's body in one step. *)
Lemma process_page_unfold page results (s : State P) :
  process_page P page results s =
  if bool_decide (page ∈ visited_links P s) then
    (results,
     mkState P (visited_links P s) (all_urls P s) (files P s) (world P s)
       (trace P s ++ [InfoSkipping page]))
  else
    let w := (requests_get P page (world P s)).2 in
    match fetched P page (world P s) with
    | Some d =>
        (results ++ contact_records d,
         mkState P ({[page]} ∪ visited_links P s) (all_urls P s) (files P s) w
           (trace P s ++ [InfoScraping page; ScrapePage page (Some d); Sleep 1]))
    | None =>
        (results,
         mkState P (visited_links P s) (all_urls P s) (files P s) w
           (trace P s ++ [InfoScraping page; LogError "Error scraping" page;
                          ScrapePage page None; Sleep 1]))
    end.
Proof.
  unfold process_page.
  unfold mbind at 1. unfold M_bind at 1. unfold get_state.
  case_bool_decide; [done|].
  unfold mbind at 1. unfold M_bind at 1. unfold emit at 1.
  unfold mbind at 1. unfold M_bind at 1.
  rewrite scrape_page_unfold. simpl.
  destruct (fetched P page (world P s)) as [d|];
    unfold mbind, M_bind, mret, M_ret, emit, set_visited; simpl;
    by rewrite <- !app_assoc.
Qed.

(** A page that is already visited is passed over: no request, no call of
    [scrape_page], no record, no pause. *)
Lemma process_page_skips_visited page results (s : State P) :
  page ∈ visited_links P s ->
  process_page P page results s =
  (results,
   mkState P (visited_links P s) (all_urls P s) (files P s) (world P s)
     (trace P s ++ [InfoSkipping page])).
Proof.
  intros Hv. by rewrite process_page_unfold, bool_decide_eq_true_2.
Qed.

Lemma scrape_page_returns url (s : State P) :
  (scrape_page P url s).1 = fetched P url (world P s).
Proof. by rewrite scrape_page_unfold. Qed.

Lemma page_record_fields u text data :
  page_record P u text = Some data ->
  url data = u /\
  emails data =
    List.filter
      (fun email => negb (Py.startswith email ["noreply"; "no-reply"; "donotreply"]))
      (elements (list_to_set (findall EMAIL_REGEX text) : gset string)) /\
  phones data = elements (list_to_set (findall PHONE_REGEX text) : gset string).
Proof.
  unfold page_record.
  destruct (extract_entities P text) as [[ns os]|]; [|done].
  simpl. by intros [= <-].
Qed.

Lemma fetched_page_record u w data :
  fetched P u w = Some data -> exists text, page_record P u text = Some data.
Proof.
  unfold fetched. destruct (requests_get P u w).1 as [content|]; [|done].
  simpl. destruct (soup_text P content) as [text|]; [|done].
  simpl. eauto.
Qed.

(** Lines 115-125 produce one record per name, or one record without a
    name. *)
Lemma contact_records_by_name data :
  contact_records data =
  (fun name =>
     {| Person_Name := name;
        Designation := None;
        Company := head (orgs data);
        Emails := if emails data is [] then None
                  else Some (Py.join ", " (emails data));
        Phones := if phones data is [] then None
                  else Some (Py.join ", " (phones data));
        Source_URL := url data |})
  <$> (if names data is [] then [None] else Some <$> names data).
Proof.
  unfold contact_records.
  destruct (names data) as [|n ns] eqn:E; [done|].
  replace (length (n :: ns) `max` 1) with (length (n :: ns)) by (simpl; lia).
  apply list_eq. intros i. rewrite !list_lookup_fmap.
  destruct (decide (i < length (n :: ns))) as [Hi|Hi].
  - rewrite lookup_seq_lt by done. simpl.
    destruct ((n :: ns) !! i) as [x|] eqn:Ex; [done|].
    apply lookup_ge_None in Ex. lia.
  - rewrite lookup_seq_ge by lia.
    by rewrite (proj2 (lookup_ge_None (n :: ns) i)) by lia.
Qed.

End WithPlatform.

(** C2.  Whenever [scrape_page] returns a record, none of its emails starts
    with [noreply], [no-reply] or [donotreply] (an exact, case-sensitive
    prefix test), and neither its emails nor its phones repeat a string. *)
Theorem scrape_page_emails_filtered P url (s : State P) data :
  (scrape_page P url s).1 = Some data ->
  (forall e, e ∈ emails data ->
     String.prefix "noreply" e = false /\
     String.prefix "no-reply" e = false /\
     String.prefix "donotreply" e = false) /\
  NoDup (emails data) /\ NoDup (phones data).
Proof.
  rewrite scrape_page_returns.
  intros (text & (_ & He & Hp)%page_record_fields)%fetched_page_record.
  rewrite He, Hp. split; [|split].
  - intros e (_ & Hf)%list_elem_of_In%filter_In.
    apply negb_true_iff in Hf. unfold Py.startswith in Hf. simpl in Hf.
    apply orb_false_iff in Hf as [H1 Hf].
    apply orb_false_iff in Hf as [H2 Hf].
    by apply orb_false_iff in Hf as [H3 _].
  - apply NoDup_ListNoDup, List.NoDup_filter, NoDup_ListNoDup, NoDup_elements.
  - apply NoDup_elements.
Qed.

Lemma scrape_page_emails_filtered_witness :
  (forall e, e ∈ [] ->
     String.prefix "noreply" e = false /\
     String.prefix "no-reply" e = false /\
     String.prefix "donotreply" e = false) /\
  NoDup ([] : list string) /\ NoDup ([] : list string).
Proof.
  apply (scrape_page_emails_filtered Demo.platform Demo.about (Demo.start ∅)
           (mkPage Demo.about [] ["Example Pvt Ltd"] [] [])).
  vm_compute. reflexivity.
Defined.

(** C4.  When [scrape_page] returns a record for a page that is not yet
    visited, the orchestrator appends exactly [max(len(names), 1)] contact
    records: one per name, in order, or a single one without a name when no
    name was found; each carries the first organisation (none if there is
    none) and the emails and the phones joined by [", "] (none if empty). *)
Theorem process_page_contact_records P page results (s : State P) data :
  page ∉ visited_links P s ->
  (scrape_page P page s).1 = Some data ->
  (process_page P page results s).1 =
    results ++
    ((fun name =>
        {| Person_Name := name;
           Designation := None;
           Company := head (orgs data);
           Emails := if emails data is [] then None
                     else Some (Py.join ", " (emails data));
           Phones := if phones data is [] then None
                     else Some (Py.join ", " (phones data));
           Source_URL := url data |})
     <$> (if names data is [] then [None] else Some <$> names data)) /\
  length (process_page P page results s).1 =
    length results + length (names data) `max` 1.
Proof.
  intros Hnew Hdata. rewrite scrape_page_returns in Hdata.
  rewrite process_page_unfold, bool_decide_eq_false_2 by done.
  simpl. rewrite Hdata. simpl. split.
  - by rewrite contact_records_by_name.
  - unfold contact_records.
    by rewrite length_app, length_fmap, length_seq.
Qed.

Lemma process_page_contact_records_witness :
  (process_page Demo.platform Demo.home [] (Demo.start ∅)).1 =
    [ {| Person_Name := Some "Jane Doe";
         Designation := None;
         Company := None;
         Emails := Some "jane@example.in";
         Phones := Some "9876543210";
         Source_URL := "https://example.in" |} ].
Proof.
  refine (proj1 (process_page_contact_records Demo.platform Demo.home []
                   (Demo.start ∅)
                   (mkPage Demo.home ["Jane Doe"] [] ["jane@example.in"]
                      ["9876543210"]) _ _)).
  - apply not_elem_of_empty.
  - vm_compute. reflexivity.
Defined.

End PageFacts.

(* ===================================================================== *)
(** * The crawl of a batch *)
(* ===================================================================== *)

Module CrawlFacts.
Import Scraper Run PageFacts.

Lemma visited_after_app v t1 t2 :
  visited_after v (t1 ++ t2) = visited_after (visited_after v t1) t2.
Proof. apply foldl_app. Qed.

Lemma visited_after_grows t : forall v, v ⊆ visited_after v t.
Proof.
  induction t as [|e t IH]; intros v; [done|].
  change (visited_after v (e :: t)) with (visited_after (visited_after v [e]) t).
  etrans; [|apply IH].
  destruct e as [| | | |page [d|]|]; simpl; set_solver.
Qed.

Lemma visited_after_success t : forall v page d,
  ScrapePage page (Some d) ∈ t -> page ∈ visited_after v t.
Proof.
  induction t as [|e t IH]; intros v page d Hin; [by apply elem_of_nil in Hin|].
  change (visited_after v (e :: t)) with (visited_after (visited_after v [e]) t).
  apply elem_of_cons in Hin as [<-|Hin]; [|by eapply IH].
  apply visited_after_grows. simpl. set_solver.
Qed.

Lemma well_guarded_app t1 : forall v t2,
  well_guarded v t1 -> well_guarded (visited_after v t1) t2 ->
  well_guarded v (t1 ++ t2).
Proof.
  induction t1 as [|e t1 IH]; intros v t2 H1 H2; [done|].
  destruct H1 as [He H1]. split; [done|]. by apply IH.
Qed.

Lemma well_guarded_call pre : forall v page r post,
  well_guarded v (pre ++ ScrapePage page r :: post) ->
  page ∉ visited_after v pre.
Proof.
  induction pre as [|e pre IH]; intros v page r post H.
  - by destruct H.
  - destruct H as [_ H]. by apply IH in H.
Qed.

Section WithPlatform.
Variable P : Platform.

Lemma orderly_ret {A} (a : A) : orderly P (mret a).
Proof. intros s. exists []. by rewrite app_nil_r. Qed.

Lemma orderly_bind {A B} (m : M P A) (f : A -> M P B) :
  orderly P m -> (forall a, orderly P (f a)) -> orderly P (m ≫= f).
Proof.
  intros Hm Hf s. unfold mbind, M_bind.
  destruct (Hm s) as (t1 & Ht1 & Hv1 & Hg1).
  destruct (m s) as [a s1]. simpl in *.
  destruct (Hf a s1) as (t2 & Ht2 & Hv2 & Hg2).
  exists (t1 ++ t2). rewrite Ht2, Ht1, Hv2, Hv1, visited_after_app.
  split; [by rewrite app_assoc|split; [done|]].
  apply well_guarded_app; [done|]. by rewrite <- Hv1.
Qed.

Lemma orderly_emit e :
  (forall page r, e ≠ ScrapePage page r) -> orderly P (emit P e).
Proof.
  intros He s. exists [e]. simpl. split; [done|].
  destruct e as [| | | |page r|]; try done. by destruct (He page r).
Qed.

Lemma orderly_quiet {A} (m : M P A) :
  (forall s, trace P (m s).2 = trace P s /\
             visited_links P (m s).2 = visited_links P s) ->
  orderly P m.
Proof.
  intros H s. destruct (H s) as [Ht Hv]. exists [].
  by rewrite app_nil_r, Ht, Hv.
Qed.

Lemma orderly_http_get u : orderly P (http_get P u).
Proof.
  apply orderly_quiet. intros s. unfold http_get.
  by destruct (requests_get P u (world P s)).
Qed.

Lemma orderly_get_links base_url max_pages :
  orderly P (get_links P base_url max_pages).
Proof.
  unfold get_links. apply orderly_bind; [apply orderly_http_get|].
  intros response.
  destruct (_ ≫= _) as [[hrefs domain]|].
  - destruct (collect_links P base_url domain max_pages hrefs ∅)
      as [links [|]].
    + apply orderly_bind; [by apply orderly_emit|].
      intros _. apply orderly_ret.
    + apply orderly_bind; [apply orderly_ret|].
      intros _. apply orderly_ret.
  - apply orderly_bind; [by apply orderly_emit|].
    intros _. apply orderly_ret.
Qed.

Lemma orderly_process_page page results :
  orderly P (process_page P page results).
Proof.
  intros s. rewrite process_page_unfold. case_bool_decide as Hv.
  - exists [InfoSkipping page]. by simpl.
  - simpl. destruct (fetched P page (world P s)) as [d|]; simpl.
    + exists [InfoScraping page; ScrapePage page (Some d); Sleep 1].
      by simpl.
    + exists [InfoScraping page; LogError "Error scraping" page;
              ScrapePage page None; Sleep 1].
      by simpl.
Qed.

Lemma orderly_for {A R} (body : A -> R -> M P R) (l : list A) :
  (forall x acc, orderly P (body x acc)) ->
  forall acc, orderly P (for_ P l body acc).
Proof.
  intros Hbody. induction l as [|x l IH]; intros acc; simpl.
  - apply orderly_ret.
  - apply orderly_bind; [apply Hbody|apply IH].
Qed.

Lemma orderly_crawl_site max_pages base_url results :
  orderly P (crawl_site P max_pages base_url results).
Proof.
  unfold crawl_site. apply orderly_bind; [by apply orderly_emit|].
  intros _. apply orderly_bind; [apply orderly_get_links|].
  intros pages. apply orderly_for. apply orderly_process_page.
Qed.

Lemma orderly_crawl_and_scrape url_batch max_pages :
  orderly P (crawl_and_scrape P url_batch max_pages).
Proof.
  unfold crawl_and_scrape.
  apply orderly_bind; [apply orderly_for, orderly_crawl_site|].
  intros results. apply orderly_bind; [by apply orderly_quiet|].
  intros s. apply orderly_bind; [by apply orderly_quiet|].
  intros _. apply orderly_ret.
Qed.

End WithPlatform.

(** [visited_after] is [visited_links]: replaying the observations of a
    batch on the set it started with gives the set it ends with. *)
Lemma crawl_visited_replay P url_batch max_pages (s : State P) :
  exists t,
    trace P (crawl_and_scrape P url_batch max_pages s).2 = trace P s ++ t /\
    visited_links P (crawl_and_scrape P url_batch max_pages s).2 =
      visited_after (visited_links P s) t.
Proof.
  destruct (orderly_crawl_and_scrape P url_batch max_pages s)
    as (t & Ht & Hv & _).
  by exists t.
Qed.

(** C6.  After a batch [visited_links] contains everything it contained
    before, and every page for which [scrape_page] returned a record during
    the batch. *)
Theorem crawl_visited_monotone P url_batch max_pages (s : State P) :
  visited_links P s ⊆ visited_links P (crawl_and_scrape P url_batch max_pages s).2 /\
  exists t,
    trace P (crawl_and_scrape P url_batch max_pages s).2 = trace P s ++ t /\
    forall page data,
      ScrapePage page (Some data) ∈ t ->
      page ∈ visited_links P (crawl_and_scrape P url_batch max_pages s).2.
Proof.
  destruct (orderly_crawl_and_scrape P url_batch max_pages s)
    as (t & Ht & Hv & _).
  rewrite Hv. split; [apply visited_after_grows|].
  exists t. split; [done|]. intros page data. apply visited_after_success.
Qed.

(** C9.  Whenever [scrape_page] is called for a page during a batch, the
    page is not in [visited_links] at that moment, that is, in the set with
    which the batch started extended by the pages scraped with success
    since: a page that is in the set when its turn comes is never
    extracted. *)
Theorem visited_page_never_extracted P url_batch max_pages (s : State P)
    pre page r post :
  trace P (crawl_and_scrape P url_batch max_pages s).2 =
    trace P s ++ pre ++ ScrapePage page r :: post ->
  page ∉ visited_after (visited_links P s) pre.
Proof.
  destruct (orderly_crawl_and_scrape P url_batch max_pages s)
    as (t & Ht & _ & Hg).
  rewrite Ht. intros Heq%app_inv_head. subst t. by eapply well_guarded_call.
Qed.

Lemma visited_page_never_extracted_witness :
  Demo.about ∉
    visited_after ∅
      [InfoCrawling Demo.home; InfoScraping Demo.home;
       ScrapePage Demo.home
         (Some (mkPage Demo.home ["Jane Doe"] [] ["jane@example.in"]
                  ["9876543210"]));
       Sleep 1; InfoScraping Demo.foreign;
       LogError "Error scraping" Demo.foreign;
       ScrapePage Demo.foreign None; Sleep 1; InfoScraping Demo.about].
Proof.
  apply (visited_page_never_extracted Demo.platform [Demo.home] 10%Z
           (Demo.start ∅) _ Demo.about
           (Some (mkPage Demo.about [] ["Example Pvt Ltd"] [] []))
           [Sleep 1; InfoScraping Demo.down;
            LogError "Error scraping" Demo.down;
            ScrapePage Demo.down None; Sleep 1]).
  vm_compute. reflexivity.
Defined.

End CrawlFacts.

(* ===================================================================== *)
(** * Link discovery *)
(* ===================================================================== *)

Module LinkFacts.
Import Scraper Run.

Section WithPlatform.
Variable P : Platform.
Variables (base_url domain : string) (max_pages : Z).

Local Abbreviation collect := (collect_links P base_url domain max_pages).

Lemma collect_links_keeps hrefs : forall links, links ⊆ (collect hrefs links).1.
Proof.
  induction hrefs as [|h rest IH]; intros links; simpl; [done|].
  destruct (urljoin P base_url h) as [href|]; [|done].
  destruct (Py.contains domain href); [|apply IH].
  destruct (max_pages <=? _)%Z; simpl; [set_solver|].
  etrans; [|apply IH]. set_solver.
Qed.

(** Whatever is retained was resolved from a hyperlink of the page and
    contains the base host. *)
Lemma collect_links_sound hrefs : forall links href,
  href ∈ (collect hrefs links).1 ->
  href ∈ links \/
  (Py.contains domain href = true /\
   exists h, h ∈ hrefs /\ urljoin P base_url h = Some href).
Proof.
  induction hrefs as [|h rest IH]; intros links href; simpl; [by left|].
  destruct (urljoin P base_url h) as [href'|] eqn:Ej; [|by left].
  destruct (Py.contains domain href') eqn:Ec.
  - destruct (max_pages <=? _)%Z; simpl.
    + intros [->%elem_of_singleton|Hin]%elem_of_union; [right|by left].
      split; [done|]. exists h. split; [left|done].
    + intros [[->%elem_of_singleton|Hin]%elem_of_union|(Hc & h' & Hh' & Hj)]%IH;
        [right|by left|right].
      * split; [done|]. exists h. split; [left|done].
      * split; [done|]. exists h'. split; [by right|done].
  - intros [Hin|(Hc & h' & Hh' & Hj)]%IH; [by left|right].
    split; [done|]. exists h'. split; [by right|done].
Qed.

(** When the loop ends below the cap and [urljoin] never raises, every
    hyperlink whose resolution contains the base host is retained. *)
Lemma collect_links_complete hrefs : forall links,
  (Z.of_nat (size (collect hrefs links).1) < max_pages)%Z ->
  (forall h, h ∈ hrefs -> is_Some (urljoin P base_url h)) ->
  forall h href, h ∈ hrefs -> urljoin P base_url h = Some href ->
    Py.contains domain href = true -> href ∈ (collect hrefs links).1.
Proof.
  induction hrefs as [|h0 rest IH]; intros links Hcap Hjoin h href Hh Hj Hc.
  { by apply elem_of_nil in Hh. }
  simpl in *.
  destruct (urljoin P base_url h0) as [href0|] eqn:Ej0.
  2:{ destruct (Hjoin h0) as [? ?]; [left|congruence]. }
  assert (forall h, h ∈ rest -> is_Some (urljoin P base_url h)) as Hjoin'
    by (intros ? ?; apply Hjoin; by right).
  destruct (Py.contains domain href0) eqn:Ec0.
  - destruct (max_pages <=? _)%Z eqn:Ecap; simpl in *.
    + apply Z.leb_le in Ecap. lia.
    + apply elem_of_cons in Hh as [->|Hh].
      * apply collect_links_keeps.
        assert (href = href0) as -> by congruence. set_solver.
      * by eapply IH.
  - apply elem_of_cons in Hh as [->|Hh]; [congruence|by eapply IH].
Qed.

Lemma get_links_unfold (s : State P) content hrefs :
  (requests_get P base_url (world P s)).1 = Some content ->
  soup_hrefs P content = Some hrefs ->
  urlparse_netloc P base_url = Some domain ->
  (get_links P base_url max_pages s).1 = elements (collect hrefs ∅).1.
Proof.
  intros Hget Hsoup Hnet. unfold get_links, http_get.
  unfold mbind at 1. unfold M_bind at 1.
  destruct (requests_get P base_url (world P s)) as [r w].
  simpl in Hget. subst r. simpl. rewrite Hsoup. simpl. rewrite Hnet. simpl.
  destruct (collect hrefs ∅) as [links [|]]; done.
Qed.

End WithPlatform.

(** C1, as the code has it.  When the base page is fetched and parsed,
    every retained link is the resolution of a hyperlink of the page and
    contains the base URL's host somewhere in its text; and when fewer links
    than the cap were retained and no hyperlink made [urljoin] raise, a
    resolved hyperlink is retained if and only if the base URL's host occurs
    in the text of the resolved URL (not necessarily in its host). *)
Theorem get_links_retains_urls_containing_host P base_url max_pages
    (s : State P) content hrefs domain :
  (requests_get P base_url (world P s)).1 = Some content ->
  soup_hrefs P content = Some hrefs ->
  urlparse_netloc P base_url = Some domain ->
  (forall href, href ∈ (get_links P base_url max_pages s).1 ->
     Py.contains domain href = true /\
     exists h, h ∈ hrefs /\ urljoin P base_url h = Some href) /\
  ((Z.of_nat (length (get_links P base_url max_pages s).1) < max_pages)%Z ->
   (forall h, h ∈ hrefs -> is_Some (urljoin P base_url h)) ->
   forall h href, h ∈ hrefs -> urljoin P base_url h = Some href ->
     (href ∈ (get_links P base_url max_pages s).1 <->
      Py.contains domain href = true)).
Proof.
  intros Hget Hsoup Hnet.
  rewrite (get_links_unfold P base_url domain max_pages s content hrefs)
    by done.
  split.
  - intros href Hin%elem_of_elements.
    apply collect_links_sound in Hin as [Hin|Hin]; [set_solver|done].
  - intros Hcap Hjoin h href Hh Hj. split.
    + intros Hin%elem_of_elements.
      apply collect_links_sound in Hin as [Hin|[Hc _]]; [set_solver|done].
    + intros Hc. apply elem_of_elements.
      by eapply collect_links_complete.
Qed.

Lemma get_links_retains_urls_containing_host_witness :
  Demo.foreign ∈ (get_links Demo.platform Demo.home 10%Z (Demo.start ∅)).1 <->
  Py.contains "example.in" Demo.foreign = true.
Proof.
  refine (proj2 (get_links_retains_urls_containing_host Demo.platform
                   Demo.home 10%Z (Demo.start ∅)
                   ([Demo.about; Demo.foreign; Demo.down; Demo.about],
                    "Contact Jane Doe at jane@example.in or call 9876543210")
                   [Demo.about; Demo.foreign; Demo.down; Demo.about]
                   "example.in" eq_refl eq_refl eq_refl)
                _ _ Demo.foreign Demo.foreign _ eq_refl).
  - vm_compute. reflexivity.
  - intros h _. by exists h.
  - right. left.
Defined.

(** The link [https://evil.example/?ref=example.in] found on
    [https://example.in] is retained although its host, [evil.example],
    does not contain the base host [example.in]. *)
Lemma get_links_keeps_foreign_host :
  urlparse_netloc Demo.platform Demo.home = Some "example.in" /\
  urlparse_netloc Demo.platform Demo.foreign = Some "evil.example" /\
  ~ (Demo.foreign ∈ (get_links Demo.platform Demo.home 10%Z (Demo.start ∅)).1
     <-> Py.contains "example.in" "evil.example" = true).
Proof.
  split; [reflexivity|split; [reflexivity|]].
  intros [Hkept _]. assert (Py.contains "example.in" "evil.example" = true) as H.
  { apply Hkept. vm_compute. left. }
  vm_compute in H. discriminate.
Qed.

End LinkFacts.

(* ===================================================================== *)
(** * Deduplication *)
(* ===================================================================== *)

Module DedupFacts.
Import Scraper Run.

Implicit Types (xs pre : list ContactRecord) (r : ContactRecord).

(** The loop state after [xs]: the signatures met, and the records kept. *)
Lemma dedup_state xs :
  foldl dedup_step (∅, []) xs = (list_to_set (signature <$> xs), deduplicate xs).
Proof.
  unfold deduplicate.
  destruct (foldl dedup_step (∅, []) xs) as [seen unique] eqn:E. simpl.
  f_equal. change seen with (seen, unique).1. rewrite <- E. clear E.
  induction xs as [|r pre IH] using rev_ind; [done|].
  rewrite foldl_app, fmap_app, list_to_set_app_L, <- IH. simpl.
  destruct (foldl dedup_step (∅, []) pre) as [seen' unique']. simpl.
  clear IH. case_bool_decide; simpl; set_solver.
Qed.

(** Reading one more record: it is kept when its signature is new. *)
Lemma deduplicate_snoc pre r :
  deduplicate (pre ++ [r]) =
  deduplicate pre ++
    (if bool_decide (signature r ∈ signature <$> pre) then [] else [r]).
Proof.
  unfold deduplicate at 1. rewrite foldl_app, dedup_state. simpl.
  rewrite (bool_decide_ext _ (signature r ∈ signature <$> pre))
    by apply elem_of_list_to_set.
  case_bool_decide; simpl; [by rewrite app_nil_r|done].
Qed.

Lemma deduplicate_signatures xs k :
  k ∈ signature <$> deduplicate xs <-> k ∈ signature <$> xs.
Proof.
  induction xs as [|r pre IH] using rev_ind; [done|].
  rewrite deduplicate_snoc, !fmap_app, !elem_of_app, IH.
  case_bool_decide as Hr; simpl; [|done].
  rewrite elem_of_nil, list_elem_of_singleton. naive_solver.
Qed.

Lemma deduplicate_NoDup xs : NoDup (signature <$> deduplicate xs).
Proof.
  induction xs as [|r pre IH] using rev_ind; [constructor|].
  rewrite deduplicate_snoc. case_bool_decide as Hr; [by rewrite app_nil_r|].
  rewrite fmap_app. apply NoDup_app. split; [done|]. split.
  - intros k Hk Hk'. apply (proj1 (deduplicate_signatures _ _)) in Hk.
    simpl in Hk'. apply list_elem_of_singleton in Hk'. by subst k.
  - apply NoDup_singleton.
Qed.

Lemma deduplicate_sublist xs : deduplicate xs `sublist_of` xs.
Proof.
  induction xs as [|r pre IH] using rev_ind; [done|].
  rewrite deduplicate_snoc. apply sublist_app; [done|].
  case_bool_decide; [apply sublist_nil_l|done].
Qed.

Lemma first_with_app k xs ys :
  first_with k (xs ++ ys) =
  match first_with k xs with
  | Some r => Some r
  | None => first_with k ys
  end.
Proof.
  unfold first_with. induction xs as [|x xs IH]; simpl; [done|].
  by destruct (bool_decide (signature x = k)).
Qed.

Lemma first_with_None k xs :
  first_with k xs = None <-> k ∉ signature <$> xs.
Proof.
  unfold first_with. induction xs as [|x xs IH]; simpl.
  - split; [intros _ []%elem_of_nil|done].
  - rewrite not_elem_of_cons. case_bool_decide; [naive_solver|].
    rewrite IH. naive_solver.
Qed.

Lemma deduplicate_first xs k :
  first_with k (deduplicate xs) = first_with k xs.
Proof.
  induction xs as [|r pre IH] using rev_ind; [done|].
  rewrite deduplicate_snoc, !first_with_app, IH.
  destruct (first_with k pre) as [r'|] eqn:E; [done|].
  case_bool_decide as Hr; [|done]. simpl.
  case_bool_decide as Hk; [|done]. subst k.
  by apply first_with_None in E.
Qed.

(** C7.  The deduplicator keeps, for each signature (emails, phones), the
    first record of the input that has it: a record is kept exactly when no
    earlier record has its signature, whatever the other fields are; so two
    different records of the output never have the same signature. *)
Theorem deduplicate_keeps_first xs :
  (forall k, first_with k (deduplicate xs) = first_with k xs) /\
  (forall pre r post, xs = pre ++ r :: post ->
     deduplicate (pre ++ [r]) =
     deduplicate pre ++
       (if bool_decide (signature r ∈ signature <$> pre) then [] else [r])) /\
  (forall r1 r2, r1 ∈ deduplicate xs -> r2 ∈ deduplicate xs ->
     r1 ≠ r2 -> signature r1 ≠ signature r2).
Proof.
  split; [intros k; apply deduplicate_first|split].
  - intros pre r post _. apply deduplicate_snoc.
  - intros r1 r2 (i & Hi)%list_elem_of_lookup (j & Hj)%list_elem_of_lookup
      Hne Hsig.
    assert (i = j) as ->.
    { eapply NoDup_lookup; [apply (deduplicate_NoDup xs)|..].
      - by rewrite list_lookup_fmap, Hi.
      - by rewrite list_lookup_fmap, Hj, Hsig. }
    congruence.
Qed.

Lemma deduplicate_keeps_first_witness :
  let a := mkContact None None None (Some "contact@firm.in") None "https://firm.in" in
  let b := mkContact (Some "A. Rao") None (Some "Firm") (Some "contact@firm.in") None
             "https://firm.in/team" in
  deduplicate ([a] ++ [b]) = deduplicate [a] ++ [].
Proof.
  intros a b.
  exact (proj1 (proj2 (deduplicate_keeps_first [a; b])) [a] b [] eq_refl).
Defined.

(** C10.  Deduplicating twice is deduplicating once, and the output is a
    subsequence of the input. *)
Theorem deduplicate_idempotent xs :
  deduplicate (deduplicate xs) = deduplicate xs /\
  deduplicate xs `sublist_of` xs.
Proof.
  split; [|apply deduplicate_sublist].
  induction xs as [|r pre IH] using rev_ind; [done|].
  rewrite deduplicate_snoc. case_bool_decide as Hr; [by rewrite app_nil_r|].
  rewrite deduplicate_snoc, IH.
  rewrite bool_decide_eq_false_2; [done|].
  by rewrite deduplicate_signatures.
Qed.

End DedupFacts.

(* ===================================================================== *)
(** * Batch selection *)
(* ===================================================================== *)

Module BatchFacts.
Import Scraper.

Lemma slice_to_nonneg {A} (l : list A) (n : Z) :
  (0 <= n)%Z -> Py.slice_to l n = take (Z.to_nat n) l.
Proof. intros Hn. unfold Py.slice_to. by rewrite (proj2 (Z.ltb_ge n 0)). Qed.

(** C8.  For a batch size [b >= 0] the selected batch has at most [b] URLs,
    all of them candidates that are not visited; and when the pool has 7
    URLs, 5 of which are visited, and [b = 5], the batch is made of the 2
    candidates that are not visited. *)
Theorem select_batch_spec (all_urls visited_links : gset string) (b : Z) :
  (0 <= b)%Z ->
  (forall batch, select_batch all_urls visited_links b = Some batch ->
     (Z.of_nat (length batch) <= b)%Z /\ NoDup batch /\
     forall u, u ∈ batch -> u ∈ all_urls /\ u ∉ visited_links) /\
  (size all_urls = 7 -> size (all_urls ∩ visited_links) = 5 -> b = 5%Z ->
   exists batch, select_batch all_urls visited_links b = Some batch /\
     length batch = 2 /\ NoDup batch /\
     forall u, u ∈ batch <-> u ∈ all_urls /\ u ∉ visited_links).
Proof.
  intros Hb. unfold select_batch, remaining_urls. split.
  - intros batch Hsel.
    assert (batch = take (Z.to_nat b) (elements (all_urls ∖ visited_links)))
      as ->.
    { destruct (elements (all_urls ∖ visited_links)) as [|u l] eqn:E;
        [done|]. injection Hsel as <-. by apply slice_to_nonneg. }
    split; [rewrite length_take; lia|split].
    + apply (sublist_NoDup _ (elements (all_urls ∖ visited_links)));
        [apply NoDup_elements|apply sublist_take].
    + intros u Hu. eapply elem_of_sublist in Hu; [|apply sublist_take].
      apply elem_of_elements in Hu. set_solver.
  - intros Hpool Hvis ->.
    assert (size (all_urls ∖ visited_links) = 2) as Hsize.
    { replace (all_urls ∖ visited_links)
        with (all_urls ∖ (all_urls ∩ visited_links)) by set_solver.
      rewrite size_difference by set_solver. lia. }
    unfold size, set_size in Hsize. simpl in Hsize.
    destruct (elements (all_urls ∖ visited_links)) as [|u l] eqn:E; [done|].
    exists (u :: l). split.
    { f_equal. rewrite slice_to_nonneg by done. apply take_ge. lia. }
    split; [done|]. rewrite <- E. split; [apply NoDup_elements|].
    intros v. rewrite elem_of_elements. set_solver.
Qed.

Lemma select_batch_spec_witness :
  exists batch,
    select_batch {["u1"; "u2"; "u3"; "u4"; "u5"; "u6"; "u7"]}
      {["u1"; "u3"; "u4"; "u6"; "u7"]} 5 = Some batch /\
    length batch = 2 /\ NoDup batch /\
    forall u, u ∈ batch <->
      u ∈ ({["u1"; "u2"; "u3"; "u4"; "u5"; "u6"; "u7"]} : gset string) /\
      u ∉ ({["u1"; "u3"; "u4"; "u6"; "u7"]} : gset string).
Proof.
  refine (proj2 (select_batch_spec
                   {["u1"; "u2"; "u3"; "u4"; "u5"; "u6"; "u7"]}
                   {["u1"; "u3"; "u4"; "u6"; "u7"]} 5 _) _ _ eq_refl).
  - done.
  - vm_compute. reflexivity.
  - vm_compute. reflexivity.
Defined.

End BatchFacts.


(* ===================================================================== *)
(** * The two JSON files *)
(* ===================================================================== *)

Module PersistFacts.
Import Scraper.


End PersistFacts.

(* ===================================================================== *)
(** * The search *)
(* ===================================================================== *)

Module SearchFacts.
Import Scraper Run.

Section WithPlatform.
Variable P : Platform.

Lemma rank_urls_spec hrefs : forall urls,
  (forall h, h ∈ hrefs -> is_Some (urlparse_netloc P h)) ->
  rank_urls P hrefs urls =
  Some (rev (List.filter (indian_url P) hrefs) ++ urls ++
        List.filter (fun u => negb (indian_url P u)) hrefs).
Proof.
  induction hrefs as [|h rest IH]; intros urls Hall; simpl.
  { by rewrite app_nil_r. }
  destruct (Hall h) as [d Hd]; [left|].
  assert (indian_url P h = indian_domain (Py.lower d)) as ->
    by (unfold indian_url; by rewrite Hd).
  rewrite Hd. simpl.
  destruct (indian_domain (Py.lower d)); simpl;
    (rewrite IH by (intros ? ?; apply Hall; by right)); f_equal;
    by rewrite <- !app_assoc.
Qed.

Lemma rank_urls_None hrefs : forall urls,
  rank_urls P hrefs urls = None <->
  exists h, h ∈ hrefs /\ urlparse_netloc P h = None.
Proof.
  induction hrefs as [|h rest IH]; intros urls; simpl.
  { split; [done|]. by intros (h & []%elem_of_nil & _). }
  destruct (urlparse_netloc P h) as [d|] eqn:Hd; simpl.
  - destruct (indian_domain (Py.lower d)); rewrite IH; split.
    + intros (h' & Hin & Hn). exists h'. split; [by right|done].
    + intros (h' & [->|Hin]%elem_of_cons & Hn); [congruence|by exists h'].
    + intros (h' & Hin & Hn). exists h'. split; [by right|done].
    + intros (h' & [->|Hin]%elem_of_cons & Hn); [congruence|by exists h'].
  - split; [|done]. intros _. exists h. split; [left|done].
Qed.

Lemma rank_urls_sub hrefs : forall acc ranked u,
  rank_urls P hrefs acc = Some ranked -> u ∈ ranked -> u ∈ acc \/ u ∈ hrefs.
Proof.
  induction hrefs as [|h rest IH]; intros acc ranked u Er Hu.
  - simpl in Er. injection Er as <-. by left.
  - simpl in Er. destruct (urlparse_netloc P h) as [d|]; [|done].
    simpl in Er. destruct (indian_domain (Py.lower d)).
    + destruct (IH _ _ _ Er Hu) as [[->|?]%elem_of_cons|?];
        [right; left|by left|right; by right].
    + destruct (IH _ _ _ Er Hu) as [[?| ->%list_elem_of_singleton]%elem_of_app|?];
        [by left|right; left|right; by right].
Qed.

End WithPlatform.

(** When the search answers and every answer can be parsed, [search_urls]
    returns the answers whose host ends in [.in] or contains [india], the
    last one first, followed by the others in the order of the answers, cut
    to [max_results]. *)
Theorem search_urls_ranking P ddgs_text keyword country max_results
    (s : State P) hrefs :
  (ddgs_text (keyword +:+ " " +:+ country) max_results (world P s)).1 = Some hrefs ->
  (forall h, h ∈ hrefs -> is_Some (urlparse_netloc P h)) ->
  (search_urls P ddgs_text keyword country max_results s).1 =
  Some (Py.slice_to
          (rev (List.filter (indian_url P) hrefs) ++
           List.filter (fun u => negb (indian_url P u)) hrefs)
          max_results).
Proof.
  intros Hget Hall. unfold search_urls.
  destruct (ddgs_text _ _ _) as [r w]. simpl in *. subst r. simpl.
  by rewrite rank_urls_spec.
Qed.

Lemma search_urls_ranking_witness :
  (search_urls Demo.platform Demo.search "doctor" "India" 100 (Demo.start ∅)).1 =
  Some ["https://www.INDIA-info.org"; Demo.home; "https://a.example/x";
        "https://c.example"; "https://d.example/?q=india"].
Proof.
  refine (search_urls_ranking Demo.platform Demo.search "doctor" "India" 100
            (Demo.start ∅) Demo.hits eq_refl _).
  intros h _. unfold urlparse_netloc, Demo.platform, Demo.netloc. eauto.
Defined.

Lemma search_urls_frame P ddgs_text keyword country max_results (s : State P) :
  visited_links P (search_urls P ddgs_text keyword country max_results s).2
    = visited_links P s /\
  all_urls P (search_urls P ddgs_text keyword country max_results s).2
    = all_urls P s /\
  files P (search_urls P ddgs_text keyword country max_results s).2 = files P s /\
  trace P (search_urls P ddgs_text keyword country max_results s).2 = trace P s.
Proof. unfold search_urls. by destruct (ddgs_text _ _ _). Qed.

(** [search_urls] fails exactly when the search raises or one of its answers
    cannot be parsed.  Otherwise, for a bound that is not negative, it returns
    at most [max_results] URLs, each of them an answer of the search.  It
    changes nothing but the network. *)
Theorem search_urls_result P ddgs_text keyword country max_results
    (s : State P) :
  ((search_urls P ddgs_text keyword country max_results s).1 = None <->
   match (ddgs_text (keyword +:+ " " +:+ country) max_results (world P s)).1 with
   | Some hrefs => exists h, h ∈ hrefs /\ urlparse_netloc P h = None
   | None => True
   end) /\
  (forall urls,
     (0 <= max_results)%Z ->
     (search_urls P ddgs_text keyword country max_results s).1 = Some urls ->
     (Z.of_nat (length urls) <= max_results)%Z /\
     exists hrefs,
       (ddgs_text (keyword +:+ " " +:+ country) max_results (world P s)).1
         = Some hrefs /\
       forall u, u ∈ urls -> u ∈ hrefs) /\
  visited_links P (search_urls P ddgs_text keyword country max_results s).2
    = visited_links P s /\
  all_urls P (search_urls P ddgs_text keyword country max_results s).2
    = all_urls P s /\
  files P (search_urls P ddgs_text keyword country max_results s).2 = files P s /\
  trace P (search_urls P ddgs_text keyword country max_results s).2 = trace P s.
Proof.
  unfold search_urls. destruct (ddgs_text _ _ _) as [[hrefs|] w]; simpl.
  2:{ split; [done|]. split; [|done]. by intros urls _ [=]. }
  split; [|split; [|done]].
  - rewrite <- rank_urls_None with (urls := []).
    destruct (rank_urls P hrefs []); simpl; split; done.
  - intros urls Hmax Hsome.
    destruct (rank_urls P hrefs []) as [ranked|] eqn:Er; [|done].
    simpl in Hsome. injection Hsome as <-.
    unfold Py.slice_to. rewrite (proj2 (Z.ltb_ge max_results 0)) by done.
    split; [rewrite length_take; lia|].
    exists hrefs. split; [done|]. intros u Hu.
    eapply elem_of_sublist in Hu; [|apply sublist_take].
    by destruct (rank_urls_sub P hrefs [] ranked u Er Hu) as [[]%elem_of_nil|].
Qed.

Lemma search_urls_result_witness :
  (Z.of_nat (length ["https://www.INDIA-info.org"; Demo.home]) <= 2)%Z /\
  exists hrefs,
    (Demo.search ("doctor" +:+ " " +:+ "India") 2 tt).1 = Some hrefs /\
    forall u, u ∈ ["https://www.INDIA-info.org"; Demo.home] -> u ∈ hrefs.
Proof.
  refine (proj1 (proj2 (search_urls_result Demo.platform Demo.search
                          "doctor" "India" 2 (Demo.start ∅))) _ _ _).
  - done.
  - vm_compute. reflexivity.
Defined.

End SearchFacts.

(* ===================================================================== *)
(** * More on link discovery *)
(* ===================================================================== *)

Module LinkBounds.
Import Scraper Run.

Section WithPlatform.
Variable P : Platform.
Variables (base_url : string) (max_pages : Z).

Lemma size_add_le (href : string) (links : gset string) :
  size ({[href]} ∪ links) <= S (size links).
Proof.
  destruct (decide (href ∈ links)) as [Hin|Hout].
  - replace ({[href]} ∪ links) with links by set_solver. lia.
  - rewrite size_union by set_solver. by rewrite size_singleton.
Qed.

Lemma collect_links_cap domain hrefs : forall links,
  (Z.of_nat (size links) < Z.max 1 max_pages)%Z ->
  (Z.of_nat (size (collect_links P base_url domain max_pages hrefs links).1)
   <= Z.max 1 max_pages)%Z.
Proof.
  induction hrefs as [|h rest IH]; intros links Hlt; simpl; [lia|].
  destruct (urljoin P base_url h) as [href|]; simpl; [|lia].
  destruct (Py.contains domain href); [|by apply IH].
  pose proof (size_add_le href links) as Hadd.
  destruct (max_pages <=? _)%Z eqn:Ecap; simpl; [lia|].
  apply IH. apply Z.leb_gt in Ecap. lia.
Qed.

Lemma get_links_run (s : State P) :
  get_links P base_url max_pages s =
  (match page_links P base_url (world P s) with
   | Some (hrefs, domain) =>
       elements (collect_links P base_url domain max_pages hrefs ∅).1
   | None => []
   end,
   mkState P (visited_links P s) (all_urls P s) (files P s)
     (requests_get P base_url (world P s)).2
     (trace P s ++
      match page_links P base_url (world P s) with
      | Some (hrefs, domain) =>
          if (collect_links P base_url domain max_pages hrefs ∅).2
          then [LogError "Error getting links from" base_url] else []
      | None => [LogError "Error getting links from" base_url]
      end)).
Proof.
  unfold get_links, page_links, http_get.
  unfold mbind at 1. unfold M_bind at 1.
  destruct (requests_get P base_url (world P s)) as [r w]. simpl.
  destruct (r ≫= _) as [[hrefs domain]|]; simpl.
  - destruct (collect_links P base_url domain max_pages hrefs ∅)
      as [links [|]]; simpl; [done|].
    by rewrite app_nil_r.
  - by rewrite elements_empty.
Qed.

End WithPlatform.

Lemma get_links_visited P base_url max_pages (s : State P) :
  visited_links P (get_links P base_url max_pages s).2 = visited_links P s.
Proof. by rewrite get_links_run. Qed.

(** [get_links] returns distinct links, and never more than [max_pages] of
    them (one, when [max_pages] is below one). *)
Theorem get_links_capped P base_url max_pages (s : State P) :
  (Z.of_nat (length (get_links P base_url max_pages s).1) <= Z.max 1 max_pages)%Z /\
  NoDup (get_links P base_url max_pages s).1.
Proof.
  rewrite get_links_run. simpl.
  destruct (page_links P base_url (world P s)) as [[hrefs domain]|].
  - split; [|apply NoDup_elements].
    apply (collect_links_cap P base_url max_pages domain hrefs ∅).
    rewrite size_empty. lia.
  - split; [simpl; lia|constructor].
Qed.

(** [get_links] touches neither the two sets nor the files; and when the base
    page cannot be fetched or parsed, or the host of the base URL cannot be
    read, it returns no link and logs one error. *)
Theorem get_links_failure P base_url max_pages (s : State P) :
  visited_links P (get_links P base_url max_pages s).2 = visited_links P s /\
  all_urls P (get_links P base_url max_pages s).2 = all_urls P s /\
  files P (get_links P base_url max_pages s).2 = files P s /\
  (page_links P base_url (world P s) = None ->
   (get_links P base_url max_pages s).1 = [] /\
   trace P (get_links P base_url max_pages s).2 =
     trace P s ++ [LogError "Error getting links from" base_url]).
Proof.
  rewrite get_links_run. simpl. repeat split; try done; by rewrite H.
Qed.

Lemma get_links_failure_witness :
  (get_links Demo.platform Demo.down 10 (Demo.start ∅)).1 = [] /\
  trace _ (get_links Demo.platform Demo.down 10 (Demo.start ∅)).2 =
    [] ++ [LogError "Error getting links from" Demo.down].
Proof.
  exact (proj2 (proj2 (proj2 (get_links_failure Demo.platform Demo.down 10
                                (Demo.start ∅)))) eq_refl).
Defined.

End LinkBounds.


(* ===================================================================== *)
(** * More on extraction *)
(* ===================================================================== *)

Module ExtractFacts.
Import Re Scraper Run ReFacts PageFacts.


(** A match at the head of [s] splits [s] into the match and what the
    matcher left. *)
Lemma match_at_split r s m :
  match_at r s = Some m -> exists rest, s = m ++ rest /\ rest ∈ rmatch r s.
Proof.
  unfold match_at. destruct (rmatch r s) as [|rest l] eqn:E; [done|].
  intros [= <-]. exists rest.
  assert (rest ∈ rmatch r s) as Hin by (rewrite E; left).
  split; [|by rewrite <- E].
  destruct (rmatch_suffix _ _ _ Hin) as [k ->].
  rewrite length_app.
  replace (length k + length rest - length rest) with (length k) by lia.
  by rewrite take_app_length.
Qed.

(** Every text returned by the scan is a match at some position. *)
Lemma scan_elem r : forall s k m,
  m ∈ scan r k s ->
  exists before rest, s = before ++ m ++ rest /\ rest ∈ rmatch r (m ++ rest).
Proof.
  induction s as [|c s IH]; intros k m Hin; [by apply elem_of_nil in Hin|].
  simpl in Hin. destruct k as [|k].
  - destruct (match_at r (c :: s)) as [m'|] eqn:Em.
    + apply elem_of_cons in Hin as [->|Hin].
      * apply match_at_split in Em as (rest & Hs & Hrest).
        exists [], rest. rewrite <- Hs. by split.
      * apply IH in Hin as (before & rest & -> & Hrest).
        by exists (c :: before), rest.
    + apply IH in Hin as (before & rest & -> & Hrest).
      by exists (c :: before), rest.
  - apply IH in Hin as (before & rest & -> & Hrest).
    by exists (c :: before), rest.
Qed.

Lemma findall_elem r text x :
  x ∈ findall r text ->
  exists before m rest,
    x = string_of_list_ascii m /\
    list_ascii_of_string text = before ++ m ++ rest /\
    rest ∈ rmatch r (m ++ rest).
Proof.
  unfold findall. intros (m & -> & Hin)%list_elem_of_fmap.
  apply scan_elem in Hin as (before & rest & Hs & Hrest).
  by exists before, m, rest.
Qed.

Lemma prefix_string_of_list m rest :
  String.prefix (string_of_list_ascii m) (string_of_list_ascii (m ++ rest)) = true.
Proof.
  induction m as [|c m IH]; simpl.
  - by destruct (string_of_list_ascii rest).
  - destruct (ascii_dec c c); [done|congruence].
Qed.

Lemma contains_prefix sub s :
  String.prefix sub s = true -> Py.contains sub s = true.
Proof. intros H. destruct s; cbn [Py.contains]; by rewrite H. Qed.

Lemma contains_string_of_list before m rest :
  Py.contains (string_of_list_ascii m)
    (string_of_list_ascii (before ++ m ++ rest)) = true.
Proof.
  induction before as [|c before IH].
  - rewrite app_nil_l. apply contains_prefix, prefix_string_of_list.
  - simpl. rewrite IH. apply orb_true_r.
Qed.

(** Whatever [re.findall] returns occurs in the text. *)
Lemma findall_contains r text x :
  x ∈ findall r text -> Py.contains x text = true.
Proof.
  intros (before & m & rest & -> & Htext & _)%findall_elem.
  rewrite <- (string_of_list_ascii_of_string text), Htext.
  apply contains_string_of_list.
Qed.




(** Every email and every phone of a record returned by [scrape_page] occurs
    in the text of the page. *)
Theorem scraped_contacts_occur_in_text P url (s : State P) content text data x :
  (requests_get P url (world P s)).1 = Some content ->
  soup_text P content = Some text ->
  (scrape_page P url s).1 = Some data ->
  x ∈ emails data \/ x ∈ phones data ->
  Py.contains x text = true.
Proof.
  intros Hget Htext. rewrite scrape_page_returns. unfold fetched.
  rewrite Hget. simpl. rewrite Htext. simpl.
  intros (_ & He & Hp)%page_record_fields. rewrite He, Hp.
  intros [Hin|Hin].
  - apply list_elem_of_In, filter_In in Hin as [Hin _].
    apply list_elem_of_In, elem_of_elements, elem_of_list_to_set in Hin.
    by eapply findall_contains.
  - apply elem_of_elements, elem_of_list_to_set in Hin.
    by eapply findall_contains.
Qed.

Lemma scraped_contacts_occur_in_text_witness :
  Py.contains "jane@example.in"
    "Contact Jane Doe at jane@example.in or call 9876543210" = true.
Proof.
  apply (scraped_contacts_occur_in_text Demo.platform Demo.home (Demo.start ∅)
           ([Demo.about; Demo.foreign; Demo.down; Demo.about],
            "Contact Jane Doe at jane@example.in or call 9876543210")
           "Contact Jane Doe at jane@example.in or call 9876543210"
           (mkPage Demo.home ["Jane Doe"] [] ["jane@example.in"] ["9876543210"])
           "jane@example.in" eq_refl eq_refl).
  - vm_compute. reflexivity.
  - left. left.
Defined.

(** [scrape_page] fails exactly when the page cannot be fetched, its text
    cannot be extracted, or the entity recogniser raises; the matching of the
    two patterns never fails.  A record carries the URL that was asked for.
    The two sets and the files are left as they were, and an error is logged
    exactly when there is no record. *)
Theorem scrape_page_outcome P url (s : State P) :
  ((scrape_page P url s).1 = None <->
   match (requests_get P url (world P s)).1 with
   | Some content =>
       match soup_text P content with
       | Some text => nlp_ents P text = None
       | None => True
       end
   | None => True
   end) /\
  (forall data, (scrape_page P url s).1 = Some data -> Scraper.url data = url) /\
  visited_links P (scrape_page P url s).2 = visited_links P s /\
  all_urls P (scrape_page P url s).2 = all_urls P s /\
  files P (scrape_page P url s).2 = files P s /\
  trace P (scrape_page P url s).2 =
    trace P s ++
    (if (scrape_page P url s).1 is None then [LogError "Error scraping" url] else [])
    ++ [ScrapePage url (scrape_page P url s).1].
Proof.
  rewrite scrape_page_unfold. simpl. split; [|split; [|done]].
  - unfold fetched.
    destruct (requests_get P url (world P s)).1 as [content|]; [|done].
    simpl. destruct (soup_text P content) as [text|]; [|done].
    simpl. unfold page_record, extract_entities.
    destruct (nlp_ents P text) as [ents|]; simpl; split; done.
  - intros data (text & (Hu & _)%page_record_fields)%fetched_page_record. done.
Qed.

End ExtractFacts.


(* ===================================================================== *)
(** * More on the crawl of a batch *)
(* ===================================================================== *)

Module CrawlMore.
Import Scraper Run PageFacts CrawlFacts LinkBounds.

Lemma successes_app t1 t2 : successes (t1 ++ t2) = successes t1 ++ successes t2.
Proof. apply bind_app. Qed.

Lemma visited_after_successes t : forall v,
  visited_after v t = v ∪ list_to_set (successes t).
Proof.
  induction t as [|e t IH]; intros v.
  - simpl. set_solver.
  - change (visited_after v (e :: t)) with (visited_after (visited_after v [e]) t).
    rewrite IH. change (e :: t) with ([e] ++ t).
    rewrite successes_app, list_to_set_app_L.
    destruct e as [| | | |page [d|]|]; simpl; set_solver.
Qed.

Lemma well_guarded_successes t : forall v,
  well_guarded v t ->
  NoDup (successes t) /\ forall page, page ∈ successes t -> page ∉ v.
Proof.
  induction t as [|e t IH]; intros v Hg.
  { split; [constructor|]. by intros page []%elem_of_nil. }
  destruct Hg as [He Hg]. apply IH in Hg as [Hnd Hout].
  change (e :: t) with ([e] ++ t). rewrite successes_app.
  destruct e as [| | | |page [d|]|]; simpl in *; try done.
  split.
  - constructor; [|done]. intros Hin%Hout. set_solver.
  - intros q [->|Hin%Hout]%elem_of_cons; [done|set_solver].
Qed.

Section WithPlatform.
Variable P : Platform.

(** *** Components of the state that a computation leaves alone *)

Lemma preserves_ret {A X} (f : State P -> X) (a : A) : preserves f (mret a).
Proof. by intros s. Qed.

Lemma preserves_bind {A B X} (f : State P -> X) (m : M P A) (k : A -> M P B) :
  preserves f m -> (forall a, preserves f (k a)) -> preserves f (m ≫= k).
Proof.
  intros Hm Hk s. unfold mbind, M_bind.
  specialize (Hm s). destruct (m s) as [a s1]. simpl in *.
  by rewrite Hk.
Qed.

Lemma preserves_for {A R X} (f : State P -> X) (body : A -> R -> M P R) l :
  (forall x acc, preserves f (body x acc)) ->
  forall acc, preserves f (for_ P l body acc).
Proof.
  intros Hbody. induction l as [|x l IH]; intros acc; simpl.
  - apply preserves_ret.
  - apply preserves_bind; [apply Hbody|apply IH].
Qed.

Lemma preserves_get_links {X} (f : State P -> X) base_url max_pages :
  (forall v a fs w t w' t', f (mkState P v a fs w t) = f (mkState P v a fs w' t')) ->
  preserves f (get_links P base_url max_pages).
Proof.
  intros Hf s. rewrite get_links_run. simpl. destruct s. apply Hf.
Qed.

Lemma preserves_process_page {X} (f : State P -> X) page results :
  (forall v a fs w t v' w' t', f (mkState P v a fs w t) = f (mkState P v' a fs w' t')) ->
  preserves f (process_page P page results).
Proof.
  intros Hf s. rewrite process_page_unfold. destruct s as [v a fs w t].
  simpl. case_bool_decide; [apply Hf|].
  destruct (fetched P page w); apply Hf.
Qed.

Lemma preserves_crawl_loop {X} (f : State P -> X) url_batch max_pages acc :
  (forall v a fs w t v' w' t', f (mkState P v a fs w t) = f (mkState P v' a fs w' t')) ->
  preserves f (for_ P url_batch (crawl_site P max_pages) acc).
Proof.
  intros Hf. apply preserves_for. intros base_url results.
  unfold crawl_site. apply preserves_bind.
  { intros s. destruct s. apply Hf. }
  intros _. apply preserves_bind; [apply preserves_get_links; intros; apply Hf|].
  intros pages. apply preserves_for. intros page res.
  by apply preserves_process_page.
Qed.

Lemma crawl_and_scrape_run url_batch max_pages (s : State P) :
  crawl_and_scrape P url_batch max_pages s =
  let r := for_ P url_batch (crawl_site P max_pages) [] s in
  (r.1, mkState P (visited_links P r.2) (all_urls P r.2)
          (<[VISITED_FILE := elements (visited_links P r.2)]> (files P r.2))
          (world P r.2) (trace P r.2)).
Proof.
  unfold crawl_and_scrape. unfold mbind at 1. unfold M_bind at 1.
  by destruct (for_ P url_batch (crawl_site P max_pages) [] s) as [r s1].
Qed.

End WithPlatform.

(** *** What a batch harvests *)

Lemma contact_records_fields data r :
  r ∈ contact_records data ->
  Designation r = None /\ Source_URL r = url data /\
  signature r =
    (if emails data is [] then None else Some (Py.join ", " (emails data)),
     if phones data is [] then None else Some (Py.join ", " (phones data))).
Proof. unfold contact_records. by intros (i & -> & _)%list_elem_of_fmap. Qed.

Lemma harvests_process_page P page : harvests (process_page P page).
Proof.
  intros acc s. rewrite process_page_unfold. case_bool_decide as Hv.
  - exists [], [InfoSkipping page]. simpl. rewrite app_nil_r.
    repeat split; [set_solver|by intros ? []%elem_of_nil].
  - simpl. destruct (fetched P page (world P s)) as [d|] eqn:Ed; simpl.
    + exists [d], [InfoScraping page; ScrapePage page (Some d); Sleep 1].
      apply fetched_page_record in Ed as (text & (Hu & _)%page_record_fields).
      simpl. rewrite app_nil_r, Hu. repeat split; [set_solver|].
      by intros ? ->%list_elem_of_singleton.
    + exists [], [InfoScraping page; LogError "Error scraping" page;
                  ScrapePage page None; Sleep 1].
      simpl. rewrite app_nil_r.
      repeat split; [set_solver|by intros ? []%elem_of_nil].
Qed.

Lemma harvests_for {P A} (body : A -> list ContactRecord -> M P (list ContactRecord)) l :
  (forall x, harvests (body x)) -> harvests (for_ P l body).
Proof.
  intros Hbody. induction l as [|x l IH]; intros acc s; simpl.
  - exists [], []. simpl. rewrite !app_nil_r.
    repeat split; [set_solver|by intros ? []%elem_of_nil].
  - unfold mbind, M_bind.
    destruct (Hbody x acc s) as (ds1 & t1 & Hr1 & Ht1 & Hu1 & Hv1 & Hn1).
    destruct (body x acc s) as [acc1 s1]. simpl in *.
    destruct (IH acc1 s1) as (ds2 & t2 & Hr2 & Ht2 & Hu2 & Hv2 & Hn2).
    exists (ds1 ++ ds2), (t1 ++ t2).
    rewrite Hr2, Ht2, Hv2, Hr1, Ht1, Hv1, successes_app, fmap_app, Hu1, Hu2,
      bind_app, list_to_set_app_L, !app_assoc.
    repeat split; [set_solver|].
    intros page [Hin|Hin]%elem_of_app; [by apply Hn1|].
    apply Hn2 in Hin. rewrite Hv1 in Hin. set_solver.
Qed.

Lemma crawl_site_run P max_pages base_url acc (s : State P) :
  crawl_site P max_pages base_url acc s =
  let s0 := (emit P (InfoCrawling base_url) s).2 in
  for_ P (base_url :: (get_links P base_url max_pages s0).1) (process_page P)
    acc (get_links P base_url max_pages s0).2.
Proof.
  unfold crawl_site. unfold mbind at 1. unfold M_bind at 1. unfold emit at 1.
  unfold mbind at 1. unfold M_bind at 1. simpl.
  by destruct (get_links P base_url max_pages _) as [pages s1].
Qed.

Lemma get_links_trace P base_url max_pages (s : State P) :
  exists errs,
    trace P (get_links P base_url max_pages s).2 = trace P s ++ errs /\
    successes errs = [] /\ attempts errs = 0 /\ pauses errs = 0.
Proof.
  rewrite get_links_run. simpl. eexists. split; [done|].
  destruct (page_links P base_url (world P s)) as [[hrefs domain]|]; [|done].
  by destruct (collect_links P base_url domain max_pages hrefs ∅).2.
Qed.

Lemma harvests_crawl_site P max_pages base_url :
  harvests (crawl_site P max_pages base_url).
Proof.
  intros acc s. rewrite crawl_site_run. cbv zeta.
  set (s0 := (emit P (InfoCrawling base_url) s).2).
  destruct (get_links_trace P base_url max_pages s0) as (errs & Hte & Hse & _).
  pose proof (get_links_visited P base_url max_pages s0) as Hve.
  destruct (harvests_for (process_page P)
              (base_url :: (get_links P base_url max_pages s0).1)
              (harvests_process_page P) acc
              (get_links P base_url max_pages s0).2)
    as (ds & t & Hr & Ht & Hu & Hv & Hn).
  rewrite Hte in Ht. rewrite Hve in Hv, Hn.
  exists ds, ([InfoCrawling base_url] ++ errs ++ t).
  split; [exact Hr|]. split.
  { rewrite Ht. unfold s0. simpl. by rewrite <- !app_assoc. }
  rewrite !successes_app, Hse. by repeat split.
Qed.

(** The records of a batch are those of the pages scraped with success, page
    by page; these pages are distinct, were not visited before, and are what
    the batch adds to [visited_links]. *)
Lemma crawl_harvest P url_batch max_pages (s : State P) :
  exists ds t,
    (crawl_and_scrape P url_batch max_pages s).1 = ds ≫= contact_records /\
    trace P (crawl_and_scrape P url_batch max_pages s).2 = trace P s ++ t /\
    url <$> ds = successes t /\
    NoDup (successes t) /\
    visited_links P (crawl_and_scrape P url_batch max_pages s).2
      = visited_links P s ∪ list_to_set (successes t) /\
    forall page, page ∈ successes t -> page ∉ visited_links P s.
Proof.
  destruct (orderly_crawl_and_scrape P url_batch max_pages s)
    as (t' & Ht' & _ & Hg%well_guarded_successes).
  revert Ht'. rewrite crawl_and_scrape_run. simpl.
  destruct (harvests_for (crawl_site P max_pages) url_batch
              (harvests_crawl_site P max_pages) [] s)
    as (ds & t & Hr & Ht & Hu & Hv & Hn).
  rewrite Ht. intros Heq%app_inv_head. subst t'.
  exists ds, t. by destruct Hg.
Qed.

(** Every record returned for a batch has no designation and comes from a
    page that was not visited before the batch and is visited after it. *)
Theorem crawl_records_provenance P url_batch max_pages (s : State P) r :
  r ∈ (crawl_and_scrape P url_batch max_pages s).1 ->
  Designation r = None /\
  Source_URL r ∉ visited_links P s /\
  Source_URL r ∈ visited_links P (crawl_and_scrape P url_batch max_pages s).2.
Proof.
  destruct (crawl_harvest P url_batch max_pages s)
    as (ds & t & -> & _ & Hu & _ & -> & Hn).
  intros (d & (Hd & Hs & _)%contact_records_fields & Hin)%list_elem_of_bind.
  assert (Source_URL r ∈ successes t) as Hsucc.
  { rewrite <- Hu, Hs. by apply list_elem_of_fmap_2. }
  split; [done|]. split; [by apply Hn|]. set_solver.
Qed.

Lemma crawl_records_provenance_witness :
  Designation
    (mkContact (Some "Jane Doe") None None (Some "jane@example.in")
       (Some "9876543210") Demo.home) = None /\
  Demo.home ∉ (∅ : gset string) /\
  Demo.home ∈
    visited_links _ (crawl_and_scrape Demo.platform [Demo.home] 10 (Demo.start ∅)).2.
Proof.
  apply (crawl_records_provenance Demo.platform [Demo.home] 10 (Demo.start ∅)
           (mkContact (Some "Jane Doe") None None (Some "jane@example.in")
              (Some "9876543210") Demo.home)).
  vm_compute. left.
Defined.

(** During a batch no page is scraped with success twice, and the pages
    scraped with success are exactly what the batch adds to [visited_links],
    none of them being there before. *)
Theorem crawl_scrapes_once P url_batch max_pages (s : State P) :
  exists t,
    trace P (crawl_and_scrape P url_batch max_pages s).2 = trace P s ++ t /\
    NoDup (successes t) /\
    visited_links P (crawl_and_scrape P url_batch max_pages s).2
      = visited_links P s ∪ list_to_set (successes t) /\
    forall page, page ∈ successes t -> page ∉ visited_links P s.
Proof.
  destruct (crawl_harvest P url_batch max_pages s)
    as (ds & t & _ & Ht & _ & Hnd & Hv & Hn).
  by exists t.
Qed.

(** *** What a batch adds to the trace *)

Section Emits.
Variable P : Platform.
Variable Q : list event -> Prop.
Hypothesis Q_nil : Q [].
Hypothesis Q_app : forall t1 t2, Q t1 -> Q t2 -> Q (t1 ++ t2).

Lemma emits_ret {A} (a : A) : emits Q (mret a : M P A).
Proof. intros s. exists []. by rewrite app_nil_r. Qed.

Lemma emits_bind {A B} (m : M P A) (k : A -> M P B) :
  emits Q m -> (forall a, emits Q (k a)) -> emits Q (m ≫= k).
Proof.
  intros Hm Hk s. unfold mbind, M_bind.
  destruct (Hm s) as (t1 & Ht1 & Hq1). destruct (m s) as [a s1]. simpl in *.
  destruct (Hk a s1) as (t2 & Ht2 & Hq2).
  exists (t1 ++ t2). rewrite Ht2, Ht1, app_assoc. auto.
Qed.

Lemma emits_for {A R} (body : A -> R -> M P R) l :
  (forall x acc, emits Q (body x acc)) -> forall acc, emits Q (for_ P l body acc).
Proof.
  intros Hbody. induction l as [|x l IH]; intros acc; simpl.
  - apply emits_ret.
  - apply emits_bind; [apply Hbody|apply IH].
Qed.

Lemma emits_crawl_and_scrape url_batch max_pages :
  (forall base_url results, emits Q (crawl_site P max_pages base_url results)) ->
  emits Q (crawl_and_scrape P url_batch max_pages).
Proof.
  intros Hsite s. rewrite crawl_and_scrape_run. simpl.
  by apply emits_for.
Qed.

End Emits.

Lemma pauses_app t1 t2 : pauses (t1 ++ t2) = pauses t1 + pauses t2.
Proof. unfold pauses. by rewrite List.filter_app, length_app. Qed.

Lemma attempts_app t1 t2 : attempts (t1 ++ t2) = attempts t1 + attempts t2.
Proof. unfold attempts. by rewrite List.filter_app, length_app. Qed.

Lemma emits_process_page_paced P page results :
  emits (fun t => pauses t = attempts t) (process_page P page results).
Proof.
  intros s. rewrite process_page_unfold. case_bool_decide.
  - by exists [InfoSkipping page].
  - simpl. destruct (fetched P page (world P s)); simpl; by eexists.
Qed.

(** A batch pauses once after every call of [scrape_page], whether it
    succeeded or not, and at no other time: not after a page that was
    skipped, nor after link discovery. *)
Theorem crawl_pauses_per_attempt P url_batch max_pages (s : State P) :
  exists t,
    trace P (crawl_and_scrape P url_batch max_pages s).2 = trace P s ++ t /\
    pauses t = attempts t.
Proof.
  apply emits_crawl_and_scrape; [done| |].
  { intros t1 t2 H1 H2. by rewrite pauses_app, attempts_app, H1, H2. }
  intros base_url results s0. rewrite crawl_site_run. cbv zeta.
  set (s1 := (emit P (InfoCrawling base_url) s0).2).
  destruct (get_links_trace P base_url max_pages s1) as (errs & Hte & _ & Ha & Hp).
  destruct (emits_for P (fun t => pauses t = attempts t) eq_refl
              (fun t1 t2 H1 H2 =>
                 eq_trans (pauses_app t1 t2)
                   (eq_trans (f_equal2 Nat.add H1 H2) (eq_sym (attempts_app t1 t2))))
              (process_page P)
              (base_url :: (get_links P base_url max_pages s1).1)
              (emits_process_page_paced P) results
              (get_links P base_url max_pages s1).2) as (t & Ht & Hq).
  exists ([InfoCrawling base_url] ++ errs ++ t). split.
  - rewrite Ht, Hte. unfold s1. simpl. by rewrite <- !app_assoc.
  - rewrite !pauses_app, !attempts_app, Ha, Hp, Hq. done.
Qed.

Lemma emits_weaken {P A} (Q Q' : list event -> Prop) (m : M P A) :
  (forall t, Q t -> Q' t) -> emits Q m -> emits Q' m.
Proof. intros HQ Hm s. destruct (Hm s) as (t & Ht & Hq). eauto. Qed.

Lemma process_page_examines P page results (s : State P) :
  exists t,
    trace P (process_page P page results s).2 = trace P s ++ t /\
    (InfoSkipping page ∈ t \/ exists r, ScrapePage page r ∈ t).
Proof.
  rewrite process_page_unfold. case_bool_decide.
  - exists [InfoSkipping page]. split; [done|]. left. left.
  - simpl. destruct (fetched P page (world P s)) as [d|]; simpl;
      eexists; (split; [done|]); right; eexists.
    + right. left.
    + right. right. left.
Qed.

Lemma crawl_site_examines P max_pages base_url results (s : State P) :
  exists t,
    trace P (crawl_site P max_pages base_url results s).2 = trace P s ++ t /\
    InfoCrawling base_url ∈ t /\
    (InfoSkipping base_url ∈ t \/ exists r, ScrapePage base_url r ∈ t).
Proof.
  rewrite crawl_site_run. cbv zeta.
  set (s0 := (emit P (InfoCrawling base_url) s).2).
  destruct (get_links_trace P base_url max_pages s0) as (errs & Hte & _).
  cbn [for_]. unfold mbind at 1. unfold M_bind at 1.
  destruct (process_page_examines P base_url results
              (get_links P base_url max_pages s0).2) as (tp & Htp & Hex).
  destruct (process_page P base_url results (get_links P base_url max_pages s0).2)
    as [acc2 s2].
  simpl in Htp.
  destruct (emits_for P (fun _ => True) I (fun _ _ _ _ => I) (process_page P)
              (get_links P base_url max_pages s0).1
              (fun page res =>
                 emits_weaken _ _ _ (fun _ _ => I)
                   (emits_process_page_paced P page res))
              acc2 s2) as (t2 & Ht2 & _).
  exists ([InfoCrawling base_url] ++ errs ++ tp ++ t2). split; [|split].
  - rewrite Ht2, Htp, Hte. unfold s0. simpl. by rewrite <- !app_assoc.
  - left.
  - destruct Hex as [Hsk|[r Hr]]; [left|right; exists r];
      rewrite !elem_of_app; auto.
Qed.

(** Every seed of a batch is announced and then examined itself, whatever
    link discovery gave: the seed page is either skipped as visited or handed
    to [scrape_page]. *)
Theorem crawl_examines_every_seed P url_batch max_pages (s : State P) base_url :
  base_url ∈ url_batch ->
  exists t,
    trace P (crawl_and_scrape P url_batch max_pages s).2 = trace P s ++ t /\
    InfoCrawling base_url ∈ t /\
    (InfoSkipping base_url ∈ t \/ exists r, ScrapePage base_url r ∈ t).
Proof.
  intros Hin. rewrite crawl_and_scrape_run. simpl.
  generalize (@nil ContactRecord). revert s.
  induction url_batch as [|x l IH]; intros s acc; [by apply elem_of_nil in Hin|].
  cbn [for_]. unfold mbind at 1. unfold M_bind at 1.
  destruct (crawl_site_examines P max_pages x acc s) as (t1 & Ht1 & Hc1 & He1).
  destruct (crawl_site P max_pages x acc s) as [acc1 s1]. simpl in Ht1.
  apply elem_of_cons in Hin as [->|Hin].
  - destruct (emits_for P (fun _ => True) I (fun _ _ _ _ => I)
                (crawl_site P max_pages) l
                (fun b res s' =>
                   match crawl_site_examines P max_pages b res s' with
                   | ex_intro _ t (conj Ht _) => ex_intro _ t (conj Ht I)
                   end)
                acc1 s1) as (t2 & Ht2 & _).
    exists (t1 ++ t2). rewrite Ht2, Ht1, app_assoc. split; [done|].
    split; [apply elem_of_app; by left|].
    destruct He1 as [Hsk|[r Hr]]; [left|right; exists r];
      apply elem_of_app; by left.
  - destruct (IH Hin s1 acc1) as (t2 & Ht2 & Hc2 & He2).
    exists (t1 ++ t2). rewrite Ht2, Ht1, app_assoc. split; [done|].
    split; [apply elem_of_app; by right|].
    destruct He2 as [Hsk|[r Hr]]; [left|right; exists r];
      apply elem_of_app; by right.
Qed.

Lemma crawl_examines_every_seed_witness :
  exists t,
    trace _ (crawl_and_scrape Demo.platform [Demo.down] 10 (Demo.start ∅)).2
      = [] ++ t /\
    InfoCrawling Demo.down ∈ t /\
    (InfoSkipping Demo.down ∈ t \/ exists r, ScrapePage Demo.down r ∈ t).
Proof.
  apply (crawl_examines_every_seed Demo.platform [Demo.down] 10 (Demo.start ∅)).
  left.
Defined.

Lemma crawl_frame P url_batch max_pages (s : State P) :
  (load_json P VISITED_FILE (crawl_and_scrape P url_batch max_pages s).2).1
    = visited_links P (crawl_and_scrape P url_batch max_pages s).2 /\
  all_urls P (crawl_and_scrape P url_batch max_pages s).2 = all_urls P s /\
  forall path, path ≠ VISITED_FILE ->
    files P (crawl_and_scrape P url_batch max_pages s).2 !! path
    = files P s !! path.
Proof.
  rewrite crawl_and_scrape_run. cbn [fst snd]. unfold load_json.
  cbn [files visited_links all_urls fst].
  rewrite lookup_insert_eq, list_to_set_elements_L.
  rewrite (preserves_crawl_loop P (all_urls P)) by done.
  split; [done|]. split; [done|]. intros path Hne.
  rewrite lookup_insert_ne by done.
  by rewrite (preserves_crawl_loop P (files P)).
Qed.

Lemma crawl_record_origin P url_batch max_pages (s : State P) r :
  r ∈ (crawl_and_scrape P url_batch max_pages s).1 ->
  Designation r = None /\
  Source_URL r ∈ visited_links P (crawl_and_scrape P url_batch max_pages s).2.
Proof.
  destruct (crawl_harvest P url_batch max_pages s)
    as (ds & t & -> & _ & Hu & _ & -> & _).
  intros (d & (Hd & Hs & _)%contact_records_fields & Hin)%list_elem_of_bind.
  split; [done|]. apply elem_of_union_r, elem_of_list_to_set.
  rewrite <- Hu, Hs. by apply list_elem_of_fmap_2.
Qed.

(** When a batch is over, the file of visited links holds [visited_links] as
    it is then, so that loading it gives the set back; the pool of candidate
    URLs and every other file are as they were. *)
Theorem crawl_persists_visited P url_batch max_pages (s : State P) :
  let s' := (crawl_and_scrape P url_batch max_pages s).2 in
  (load_json P VISITED_FILE s').1 = visited_links P s' /\
  all_urls P s' = all_urls P s /\
  forall path, path ≠ VISITED_FILE -> files P s' !! path = files P s !! path.
Proof.
  rewrite crawl_and_scrape_run. simpl. split; [|split].
  - unfold load_json. simpl. rewrite lookup_insert_eq.
    apply list_to_set_elements_L.
  - by apply (preserves_crawl_loop P (all_urls P)).
  - intros path Hne. rewrite lookup_insert_ne by done.
    by rewrite (preserves_crawl_loop P (files P)).
Qed.

End CrawlMore.

(* ===================================================================== *)
(** * A page that fails *)
(* ===================================================================== *)

Module FailureFacts.
Import Scraper Run PageFacts CrawlFacts LinkBounds CrawlMore.







End FailureFacts.

(* ===================================================================== *)
(** * More on deduplication *)
(* ===================================================================== *)

Module DedupMore.
Import Scraper Run DedupFacts CrawlMore.

Lemma length_deduplicate (xs : list ContactRecord) :
  length (deduplicate xs) =
  size (list_to_set (signature <$> xs) : gset (option string * option string)).
Proof.
  rewrite <- (length_fmap signature (deduplicate xs)).
  rewrite <- (size_list_to_set (C := gset _) (signature <$> deduplicate xs))
    by apply deduplicate_NoDup.
  f_equal. apply set_eq. intros k.
  rewrite !elem_of_list_to_set. apply deduplicate_signatures.
Qed.

(** The deduplicator loses no signature and returns one record per
    signature: the output has the signatures of the input, and as many
    records as the input has different signatures. *)
Theorem deduplicate_counts_signatures (xs : list ContactRecord) :
  (forall k, k ∈ signature <$> deduplicate xs <-> k ∈ signature <$> xs) /\
  length (deduplicate xs) =
    size (list_to_set (signature <$> xs) : gset (option string * option string)) /\
  length (deduplicate xs) <= length xs.
Proof.
  split; [intros k; apply deduplicate_signatures|]. split.
  - apply length_deduplicate.
  - apply sublist_length, deduplicate_sublist.
Qed.

Lemma size_list_to_set_le `{Countable A} (l : list A) :
  size (list_to_set l : gset A) <= length l.
Proof.
  induction l as [|k l IH]; simpl; [done|].
  destruct (decide (k ∈ (list_to_set l : gset A))) as [Hin|Hout].
  - replace ({[k]} ∪ list_to_set l) with (list_to_set l : gset A) by set_solver.
    lia.
  - rewrite size_union by set_solver. rewrite size_singleton. lia.
Qed.

Lemma deduplicate_same_signature (x : ContactRecord) xs :
  (forall r, r ∈ xs -> signature r = signature x) ->
  deduplicate (x :: xs) = [x].
Proof.
  induction xs as [|r pre IH] using rev_ind; intros Hsame; [done|].
  rewrite app_comm_cons, deduplicate_snoc, IH.
  - rewrite bool_decide_eq_true_2; [done|].
    rewrite (Hsame r) by (apply elem_of_app; right; left).
    rewrite fmap_cons. left.
  - intros r' Hr'. apply Hsame, elem_of_app. by left.
Qed.

(** All the records of one page have the same signature, so deduplication
    keeps the first of them only: of the names found on a page, the first
    one survives (or the record without a name when there is none). *)
Theorem deduplicate_one_per_page (data : PageRecord) :
  deduplicate (contact_records data) =
  [ {| Person_Name := head (names data);
       Designation := None;
       Company := head (orgs data);
       Emails := if emails data is [] then None
                 else Some (Py.join ", " (emails data));
       Phones := if phones data is [] then None
                 else Some (Py.join ", " (phones data));
       Source_URL := url data |} ].
Proof.
  unfold contact_records.
  destruct (length (names data) `max` 1) as [|n] eqn:En; [lia|].
  simpl seq. rewrite fmap_cons, deduplicate_same_signature.
  - by destruct (names data).
  - by intros r (i & -> & _)%list_elem_of_fmap.
Qed.

(** After deduplication a batch yields at most one contact per page that was
    scraped with success, that is, per page the batch added to
    [visited_links]. *)
Theorem deduplicated_crawl_bound P url_batch max_pages (s : State P) :
  length (deduplicate (crawl_and_scrape P url_batch max_pages s).1) <=
  size (visited_links P (crawl_and_scrape P url_batch max_pages s).2
        ∖ visited_links P s).
Proof.
  destruct (crawl_harvest P url_batch max_pages s)
    as (ds & t & -> & _ & Hu & Hnd & -> & Hn).
  replace ((visited_links P s ∪ list_to_set (successes t)) ∖ visited_links P s)
    with (list_to_set (successes t) : gset string)
    by (apply set_eq; intros page; set_unfold; naive_solver).
  rewrite size_list_to_set by done.
  rewrite <- Hu, length_fmap.
  rewrite length_deduplicate.
  set (page_signature := fun d : PageRecord =>
         (if emails d is [] then None else Some (Py.join ", " (emails d)),
          if phones d is [] then None else Some (Py.join ", " (phones d)))).
  rewrite <- (length_fmap page_signature ds).
  etrans; [|apply size_list_to_set_le].
  apply subseteq_size. intros k Hk.
  apply elem_of_list_to_set, list_elem_of_fmap in Hk as (r & -> & Hr).
  apply list_elem_of_bind in Hr as (d & Hr & Hd).
  apply contact_records_fields in Hr as (_ & _ & Hsig).
  apply elem_of_list_to_set, list_elem_of_fmap. by exists d.
Qed.

End DedupMore.

(* ===================================================================== *)
(** * Export, batch selection, reset *)
(* ===================================================================== *)

Module ExportFacts.
Import Scraper Run.

Lemma strip_controls_clean text c :
  c ∈ list_ascii_of_string (strip_controls text) -> control c = false.
Proof.
  induction text as [|a text IH]; simpl; [by intros ?%elem_of_nil|].
  destruct (control a) eqn:Ea; [done|]. simpl.
  intros [->|Hin]%elem_of_cons; auto.
Qed.

Lemma strip_controls_id text :
  (forall c, c ∈ list_ascii_of_string text -> control c = false) ->
  strip_controls text = text.
Proof.
  induction text as [|a text IH]; simpl; intros Hall; [done|].
  rewrite (Hall a) by left. f_equal. apply IH. intros c Hc. apply Hall. by right.
Qed.

(** [clean_excel_string] leaves no control character in a string, changes
    nothing in a string that has none, and cleaning twice is cleaning once. *)
Theorem clean_excel_string_spec (val : option string) :
  clean_excel_string (clean_excel_string val) = clean_excel_string val /\
  (forall text c, clean_excel_string val = Some text ->
     c ∈ list_ascii_of_string text -> control c = false) /\
  ((forall text c, val = Some text ->
      c ∈ list_ascii_of_string text -> control c = false) ->
   clean_excel_string val = val).
Proof.
  destruct val as [text|]; simpl; [|done]. split; [|split].
  - f_equal. apply strip_controls_id. apply strip_controls_clean.
  - intros text' c [= <-]. apply strip_controls_clean.
  - intros Hall. f_equal. apply strip_controls_id. intros c. by apply Hall.
Qed.

(** The table that is written has one row per record, in the order of the
    records, and six cells per row, in the order of the keys: person name,
    designation, company, emails, phones, source URL.  Each cell is the
    field with its control characters removed, an absent field being written
    as the string [None]; so every cell is a string without control
    characters. *)
Theorem export_table_cells (data : list ContactRecord) :
  export_table data =
    (fun item =>
       [Some (strip_controls (default "None" (Person_Name item)));
        Some (strip_controls (default "None" (Designation item)));
        Some (strip_controls (default "None" (Company item)));
        Some (strip_controls (default "None" (Emails item)));
        Some (strip_controls (default "None" (Phones item)));
        Some (strip_controls (Source_URL item))]) <$> data /\
  length (export_table data) = length data /\
  forall row, row ∈ export_table data ->
    length row = 6 /\
    forall cell, cell ∈ row ->
      exists text, cell = Some text /\
        forall c, c ∈ list_ascii_of_string text -> control c = false.
Proof.
  assert (export_table data =
    (fun item =>
       [Some (strip_controls (default "None" (Person_Name item)));
        Some (strip_controls (default "None" (Designation item)));
        Some (strip_controls (default "None" (Company item)));
        Some (strip_controls (default "None" (Emails item)));
        Some (strip_controls (default "None" (Phones item)));
        Some (strip_controls (Source_URL item))]) <$> data) as Heq.
  { unfold export_table. apply list_fmap_ext. intros _ item _.
    unfold cells. cbn [fmap list_fmap].
    by destruct (Person_Name item), (Designation item), (Company item),
      (Emails item), (Phones item). }
  split; [exact Heq|]. split; [by rewrite Heq, length_fmap|].
  rewrite Heq. intros row (item & -> & Hitem)%list_elem_of_fmap.
  split; [done|]. intros cell Hcell.
  repeat (apply elem_of_cons in Hcell as [->|Hcell]);
    [..|by apply elem_of_nil in Hcell];
    eexists; (split; [done|]); intros c; apply strip_controls_clean.
Qed.

End ExportFacts.

Module SelectFacts.
Import Scraper Run BatchFacts.

Lemma select_batch_None (all_urls visited_links : gset string) (b : Z) :
  select_batch all_urls visited_links b = None <-> all_urls ⊆ visited_links.
Proof.
  unfold select_batch, remaining_urls.
  destruct (elements (all_urls ∖ visited_links)) as [|u l] eqn:E.
  - apply elements_empty_inv, leibniz_equiv in E. split; [intros _|done].
    set_solver.
  - split; [done|]. intros Hsub.
    assert (u ∈ all_urls ∖ visited_links) as Hu
      by (apply elem_of_elements; rewrite E; left).
    set_solver.
Qed.

(** Nothing is selected exactly when every candidate is visited (in
    particular when there is no candidate); otherwise a batch size of at
    least one gives a batch that is not empty, and a batch size that covers
    the backlog gives the whole backlog. *)
Theorem select_batch_exhausted (all_urls visited_links : gset string) (b : Z) :
  (select_batch all_urls visited_links b = None <-> all_urls ⊆ visited_links) /\
  (forall batch, (1 <= b)%Z ->
     select_batch all_urls visited_links b = Some batch -> batch ≠ []) /\
  (forall batch, (Z.of_nat (size (all_urls ∖ visited_links)) <= b)%Z ->
     select_batch all_urls visited_links b = Some batch ->
     list_to_set batch = all_urls ∖ visited_links).
Proof.
  split; [apply select_batch_None|].
  unfold select_batch, remaining_urls.
  destruct (elements (all_urls ∖ visited_links)) as [|u l] eqn:E; [by split|].
  split.
    + intros batch Hb [= <-]. rewrite slice_to_nonneg by lia.
      destruct (Z.to_nat b) as [|n] eqn:En; [lia|done].
    + intros batch Hb [= <-]. rewrite slice_to_nonneg by lia.
      unfold size, set_size in Hb. simpl in Hb. rewrite E in Hb.
      rewrite take_ge by lia. rewrite <- E. apply list_to_set_elements_L.
Qed.

Lemma select_batch_exhausted_witness :
  select_batch {["u1"; "u2"]} {["u2"]} 1 = Some ["u1"] /\
  ["u1"] ≠ ([] : list string).
Proof.
  assert (select_batch {["u1"; "u2"]} {["u2"]} 1 = Some ["u1"]) as H
    by (vm_compute; reflexivity).
  split; [exact H|].
  exact (proj1 (proj2 (select_batch_exhausted {["u1"; "u2"]} {["u2"]} 1))
           _ ltac:(done) H).
Defined.

Lemma reset_world_trace P (s : State P) :
  world P (reset P s).2 = world P s /\ trace P (reset P s).2 = trace P s.
Proof. done. Qed.

(** After a reset both sets are empty, both files load as the empty set and
    nothing is left to select; the network and the trace are not touched. *)
Theorem reset_clears P (s : State P) (b : Z) :
  let s' := (reset P s).2 in
  visited_links P s' = ∅ /\ all_urls P s' = ∅ /\
  (load_json P VISITED_FILE s').1 = ∅ /\
  (load_json P ALL_URLS_FILE s').1 = ∅ /\
  select_batch (all_urls P s') (visited_links P s') b = None /\
  world P s' = world P s /\ trace P s' = trace P s.
Proof.
  unfold reset, mbind, M_bind, set_visited, set_all_urls, save_json, load_json.
  simpl. rewrite lookup_insert_eq.
  rewrite lookup_insert_ne by done. rewrite lookup_insert_eq.
  rewrite elements_empty. simpl. repeat split; try done.
Qed.

End SelectFacts.


(* ===================================================================== *)
(** * A run of [main] *)
(* ===================================================================== *)

Module MainFacts.
Import Scraper Run CrawlFacts CrawlMore DedupFacts SearchFacts.

Section WithPlatform.
Variable P : Platform.
Variable ddgs_text : string -> Z -> World P -> option (list string) * World P.

(** Lines 184-187 in one step. *)
Lemma ensure_all_urls_run keyword (s : State P) :
  ensure_all_urls P ddgs_text keyword s =
  if bool_decide (all_urls P s = ∅) then
    let r := search_urls P ddgs_text keyword "India" 100 s in
    match r.1 with
    | Some urls =>
        (true,
         mkState P (visited_links P r.2) (list_to_set urls)
           (<[ALL_URLS_FILE := elements (list_to_set urls : gset string)]>
              (files P r.2))
           (world P r.2) (trace P r.2))
    | None => (false, r.2)
    end
  else (true, s).
Proof.
  unfold ensure_all_urls. unfold mbind at 1. unfold M_bind at 1.
  unfold get_state at 1. case_bool_decide; [|done].
  unfold mbind at 1. unfold M_bind at 1.
  destruct (search_urls P ddgs_text keyword "India" 100 s) as [[urls|] s1];
    done.
Qed.

Lemma main_run reset_button crawl_button keyword num_websites max_pages
    (s : State P) :
  main P ddgs_text reset_button crawl_button keyword num_websites max_pages s =
  let s1 := if reset_button then (reset P s).2 else s in
  if crawl_button && negb (String.eqb keyword "") then
    let e := ensure_all_urls P ddgs_text keyword s1 in
    if e.1 then
      match select_batch (all_urls P e.2) (visited_links P e.2) num_websites with
      | None => (NoNewUrls, e.2)
      | Some batch =>
          let c := crawl_and_scrape P batch max_pages e.2 in
          (if c.1 is [] then NoContacts else Found (deduplicate c.1), c.2)
      end
    else (SearchRaised, e.2)
  else (if crawl_button then KeywordMissing else Idle, s1).
Proof.
  unfold main. unfold mbind at 1. unfold M_bind at 1.
  assert ((if reset_button then reset P else mret ()) s =
          ((), if reset_button then (reset P s).2 else s)) as ->.
  { destruct reset_button; [|done]. by destruct (reset P s) as [[] ?]. }
  cbv zeta. destruct (crawl_button && negb (String.eqb keyword "")) eqn:Ec.
  - unfold mbind at 1. unfold M_bind at 1.
    destruct (ensure_all_urls P ddgs_text keyword _) as [[|] s2]; [|done].
    unfold mbind at 1. unfold M_bind at 1. unfold get_state at 1. simpl.
    destruct (select_batch _ _ _) as [batch|]; [|done].
    unfold mbind at 1. unfold M_bind at 1.
    by destruct (crawl_and_scrape P batch max_pages s2) as [[|r data] s3].
  - by destruct crawl_button.
Qed.

End WithPlatform.

(** Without a keyword [main] does no crawl work: it makes no request, adds
    nothing to the trace, and, unless the reset button was pressed, changes
    nothing at all; a pressed crawl button is answered by the request for a
    keyword. *)
Theorem main_needs_keyword P ddgs_text reset_button crawl_button
    num_websites max_pages (s : State P) :
  let r := main P ddgs_text reset_button crawl_button "" num_websites max_pages s in
  r.1 = (if crawl_button then KeywordMissing else Idle) /\
  world P r.2 = world P s /\ trace P r.2 = trace P s /\
  (reset_button = false -> r.2 = s).
Proof.
  rewrite main_run. cbv zeta.
  replace (crawl_button && negb (String.eqb "" "")) with false
    by (by destruct crawl_button).
  cbn [fst snd]. split; [done|].
  destruct (SelectFacts.reset_world_trace P s) as (Hw & Ht).
  by destruct reset_button.
Qed.

(** A pool that is not empty is used as it is: [main] does not search, so
    that the search engine makes no difference to the run, the pool stays
    what it was, the run never ends on a failed search, and nothing that was
    visited is forgotten.  The run ends with "no new URLs" exactly when every
    candidate is visited. *)
Theorem main_reuses_pool P ddgs_text ddgs_text' keyword num_websites max_pages
    (s : State P) :
  keyword ≠ "" ->
  all_urls P s ≠ ∅ ->
  let r := main P ddgs_text false true keyword num_websites max_pages s in
  r = main P ddgs_text' false true keyword num_websites max_pages s /\
  all_urls P r.2 = all_urls P s /\
  visited_links P s ⊆ visited_links P r.2 /\
  r.1 ≠ SearchRaised /\
  (r.1 = NoNewUrls <-> all_urls P s ⊆ visited_links P s).
Proof.
  intros Hk Hpool. rewrite !main_run. cbv zeta.
  assert (String.eqb keyword "" = false) as -> by by apply String.eqb_neq.
  simpl. rewrite !ensure_all_urls_run, !bool_decide_eq_false_2 by done.
  simpl. split; [done|].
  pose proof (SelectFacts.select_batch_None (all_urls P s)
                (visited_links P s) num_websites) as Hnone.
  destruct (select_batch (all_urls P s) (visited_links P s) num_websites)
    as [batch|]; simpl.
  - destruct (crawl_frame P batch max_pages s) as (_ & Ha & _).
    assert (visited_links P s ⊆
            visited_links P (crawl_and_scrape P batch max_pages s).2) as Hv.
    { destruct (crawl_harvest P batch max_pages s)
        as (ds & t & _ & _ & _ & _ & -> & _). set_solver. }
    repeat split; try done.
    + by destruct (crawl_and_scrape P batch max_pages s).1.
    + by destruct (crawl_and_scrape P batch max_pages s).1.
    + intros Hsub. by apply Hnone in Hsub.
  - repeat split; try done. intros _. by apply Hnone.
Qed.

Lemma main_reuses_pool_witness :
  let s := mkState Demo.platform ∅ {[Demo.home]} ∅ tt [] in
  let r := main Demo.platform Demo.search false true "doctor" 2 10 s in
  r = main Demo.platform (fun _ _ w => (None, w)) false true "doctor" 2 10 s /\
  all_urls _ r.2 = all_urls _ s /\
  visited_links _ s ⊆ visited_links _ r.2 /\
  r.1 ≠ SearchRaised /\
  (r.1 = NoNewUrls <-> all_urls _ s ⊆ visited_links _ s).
Proof.
  apply (main_reuses_pool Demo.platform Demo.search (fun _ _ w => (None, w))
           "doctor" 2 10 (mkState Demo.platform ∅ {[Demo.home]} ∅ tt [])).
  - done.
  - vm_compute. discriminate.
Defined.

(** When the pool is empty, the crawl button with a keyword makes [main]
    search: if the search gives URLs, they become the pool and are saved, so
    that loading the pool file gives the pool back; if it raises, the run
    ends there, with the pool still empty and nothing scraped. *)
Theorem main_fills_empty_pool P ddgs_text keyword num_websites max_pages
    (s : State P) :
  keyword ≠ "" ->
  all_urls P s = ∅ ->
  let r := main P ddgs_text false true keyword num_websites max_pages s in
  match (search_urls P ddgs_text keyword "India" 100 s).1 with
  | Some urls =>
      all_urls P r.2 = list_to_set urls /\
      (load_json P ALL_URLS_FILE r.2).1 = list_to_set urls /\
      r.1 ≠ SearchRaised
  | None =>
      r.1 = SearchRaised /\ all_urls P r.2 = ∅ /\
      visited_links P r.2 = visited_links P s /\ trace P r.2 = trace P s
  end.
Proof.
  intros Hk Hpool. rewrite main_run. cbv zeta.
  assert (String.eqb keyword "" = false) as -> by by apply String.eqb_neq.
  simpl. rewrite ensure_all_urls_run, bool_decide_eq_true_2 by done.
  cbv zeta.
  destruct (search_urls_frame P ddgs_text keyword "India" 100 s)
    as (Hv & Ha & Hf & Ht).
  destruct (search_urls P ddgs_text keyword "India" 100 s).1 as [urls|]; simpl.
  2:{ by rewrite Ha, Hv, Ht. }
  match goal with
  | |- context [select_batch ?a ?v ?n] => destruct (select_batch a v n) as [batch|]
  end; simpl.
  - match goal with
    | |- context [crawl_and_scrape P batch max_pages ?s2] =>
        destruct (crawl_frame P batch max_pages s2) as (_ & Hca & Hcf)
    end.
    simpl in Hca, Hcf. rewrite Hca. unfold load_json.
    rewrite Hcf by done. simpl. rewrite lookup_insert_eq.
    rewrite list_to_set_elements_L. repeat split; try done.
    by destruct (crawl_and_scrape P batch max_pages _).1.
  - unfold load_json. simpl. rewrite lookup_insert_eq.
    by rewrite list_to_set_elements_L.
Qed.

Lemma main_fills_empty_pool_witness :
  let r := main Demo.platform Demo.search false true "doctor" 2 10 (Demo.start ∅) in
  all_urls _ r.2 =
    list_to_set ["https://www.INDIA-info.org"; Demo.home; "https://a.example/x";
                 "https://c.example"; "https://d.example/?q=india"] /\
  (load_json _ ALL_URLS_FILE r.2).1 =
    list_to_set ["https://www.INDIA-info.org"; Demo.home; "https://a.example/x";
                 "https://c.example"; "https://d.example/?q=india"] /\
  r.1 ≠ SearchRaised.
Proof.
  exact (main_fills_empty_pool Demo.platform Demo.search "doctor" 2 10
           (Demo.start ∅) ltac:(done) eq_refl).
Defined.

(** When [main] shows contacts, there is at least one; no two of them have
    the same signature; each has no designation and comes from a page that is
    now in [visited_links]; and the file of visited links holds that set. *)
Theorem main_found_contacts P ddgs_text reset_button crawl_button keyword
    num_websites max_pages (s : State P) deduped :
  let r := main P ddgs_text reset_button crawl_button keyword num_websites
             max_pages s in
  r.1 = Found deduped ->
  deduped ≠ [] /\
  NoDup (signature <$> deduped) /\
  (forall item, item ∈ deduped ->
     Designation item = None /\ Source_URL item ∈ visited_links P r.2) /\
  (load_json P VISITED_FILE r.2).1 = visited_links P r.2.
Proof.
  rewrite main_run. cbv zeta.
  destruct (crawl_button && negb (String.eqb keyword "")); simpl.
  2:{ by destruct crawl_button. }
  destruct (ensure_all_urls P ddgs_text keyword _) as [[|] s2]; simpl; [|done].
  destruct (select_batch _ _ _) as [batch|]; simpl; [|done].
  pose proof (crawl_record_origin P batch max_pages s2) as Hprov.
  destruct (crawl_frame P batch max_pages s2) as (Hload & _).
  destruct (crawl_and_scrape P batch max_pages s2) as [[|x data] s3] eqn:Ec;
    cbn [fst snd] in *; [done|].
  intros [= <-]. split; [|split; [|split]].
  - intros Hnil.
    assert (signature x ∈ signature <$> deduplicate (x :: data)) as Hin
      by (apply DedupFacts.deduplicate_signatures; left).
    rewrite Hnil in Hin. by apply elem_of_nil in Hin.
  - apply deduplicate_NoDup.
  - intros item Hitem.
    eapply elem_of_sublist in Hitem; [|apply deduplicate_sublist].
    by apply Hprov in Hitem.
  - done.
Qed.

Lemma main_found_contacts_witness :
  let s := mkState Demo.platform ∅ {[Demo.home]} ∅ tt [] in
  let r := main Demo.platform Demo.search false true "doctor" 2 10 s in
  exists deduped,
    r.1 = Found deduped /\ deduped ≠ [] /\
    NoDup (signature <$> deduped) /\
    (forall item, item ∈ deduped ->
       Designation item = None /\ Source_URL item ∈ visited_links _ r.2) /\
    (load_json _ VISITED_FILE r.2).1 = visited_links _ r.2.
Proof.
  intros s r.
  assert (exists deduped, r.1 = Found deduped) as [deduped H]
    by (vm_compute; eauto).
  exists deduped. split; [exact H|].
  exact (main_found_contacts Demo.platform Demo.search false true "doctor" 2 10
           s deduped H).
Defined.

End MainFacts.

(* ===================================================================== *)
(** * Names and organisations *)
(* ===================================================================== *)

Module EntityFacts.
Import Scraper Run PageFacts.

Lemma list_of_rev_app s1 : forall s2,
  list_ascii_of_string (String.rev_app s1 s2)
  = rev (list_ascii_of_string s1) ++ list_ascii_of_string s2.
Proof.
  induction s1 as [|c s1 IH]; intros s2; simpl; [done|].
  by rewrite IH, <- app_assoc.
Qed.

Lemma list_of_rev s :
  list_ascii_of_string (String.rev s) = rev (list_ascii_of_string s).
Proof. unfold String.rev. by rewrite list_of_rev_app, app_nil_r. Qed.

(** [lstrip] removes a run of whitespace, and what it leaves does not start
    with whitespace. *)
Lemma lstrip_spec s :
  exists spaces,
    list_ascii_of_string s = spaces ++ list_ascii_of_string (Py.lstrip s) /\
    forallb Py.isspace spaces = true /\
    forall c, head (list_ascii_of_string (Py.lstrip s)) = Some c ->
      Py.isspace c = false.
Proof.
  induction s as [|a s IH]; simpl.
  - by exists [].
  - destruct (Py.isspace a) eqn:Ea.
    + destruct IH as (spaces & Hs & Hall & Hhd). exists (a :: spaces).
      simpl. by rewrite Ea, Hall, Hs.
    + exists []. simpl. split; [done|]. split; [done|]. by intros c [= <-].
Qed.

(** [strip] removes whitespace at both ends, and what it leaves neither
    starts nor ends with whitespace. *)
Lemma strip_spec s :
  exists before after,
    list_ascii_of_string s =
      before ++ list_ascii_of_string (Py.strip s) ++ after /\
    forallb Py.isspace before = true /\ forallb Py.isspace after = true /\
    (forall c, head (list_ascii_of_string (Py.strip s)) = Some c ->
       Py.isspace c = false) /\
    (forall c, last (list_ascii_of_string (Py.strip s)) = Some c ->
       Py.isspace c = false).
Proof.
  unfold Py.strip.
  destruct (lstrip_spec s) as (before & Hs & Hbefore & Hhd).
  destruct (lstrip_spec (String.rev (Py.lstrip s))) as (after & Hr & Hafter & Hhd').
  rewrite list_of_rev in Hr. rewrite list_of_rev.
  set (a := list_ascii_of_string (Py.lstrip s)) in *.
  set (b := list_ascii_of_string (Py.lstrip (String.rev (Py.lstrip s)))) in *.
  assert (a = rev b ++ rev after) as Ha.
  { rewrite <- rev_app_distr, <- Hr. by rewrite rev_involutive. }
  exists before, (rev after). split; [by rewrite Hs, Ha|].
  split; [done|]. split.
  { rewrite forallb_forall in *. intros c Hc%in_rev. by apply Hafter. }
  split.
  - intros c Hc. apply Hhd. rewrite Ha.
    destruct (rev b) as [|x l]; [done|]. by simpl in *.
  - intros c [l' Hl']%last_Some. apply Hhd'.
    rewrite <- (rev_involutive b), Hl', rev_app_distr. done.
Qed.

(** The names of a record are the texts of the entities labelled [PERSON],
    the organisations those of the entities labelled [ORG], each with the
    whitespace at its two ends removed; no entity gives both a name and an
    organisation. *)
Theorem extract_entities_trimmed P text ents ns os :
  nlp_ents P text = Some ents ->
  extract_entities P text = Some (ns, os) ->
  (forall n, n ∈ ns ->
     (exists raw, (raw, "PERSON") ∈ ents /\ n = Py.strip raw) /\
     (forall c, head (list_ascii_of_string n) = Some c -> Py.isspace c = false) /\
     (forall c, last (list_ascii_of_string n) = Some c -> Py.isspace c = false)) /\
  (forall o, o ∈ os ->
     (exists raw, (raw, "ORG") ∈ ents /\ o = Py.strip raw) /\
     (forall c, head (list_ascii_of_string o) = Some c -> Py.isspace c = false) /\
     (forall c, last (list_ascii_of_string o) = Some c -> Py.isspace c = false)) /\
  length ns + length os <= length ents /\
  ns = Py.strip <$>
         (fst <$> List.filter (fun ent => bool_decide (ent.2 = "PERSON")) ents) /\
  os = Py.strip <$>
         (fst <$> List.filter (fun ent => bool_decide (ent.2 = "ORG")) ents).
Proof.
  intros Hents. unfold extract_entities. rewrite Hents. simpl.
  intros [= <- <-].
  assert (forall label,
            with_label label ents =
            Py.strip <$>
              (fst <$> List.filter (fun ent => bool_decide (ent.2 = label)) ents))
    as Hexact.
  { intros label. unfold with_label. rewrite <- list_fmap_compose.
    f_equal. apply List.filter_ext. intros [raw l]. simpl.
    destruct (String.eqb l label) eqn:E.
    - apply String.eqb_eq in E. by rewrite bool_decide_eq_true_2.
    - apply String.eqb_neq in E. by rewrite bool_decide_eq_false_2. }
  unfold with_label in *.
  assert (forall label x,
            x ∈ (fun ent : string * string => Py.strip ent.1) <$>
                  List.filter (fun ent => String.eqb ent.2 label) ents ->
            (exists raw, (raw, label) ∈ ents /\ x = Py.strip raw) /\
            (forall c, head (list_ascii_of_string x) = Some c ->
               Py.isspace c = false) /\
            (forall c, last (list_ascii_of_string x) = Some c ->
               Py.isspace c = false)) as Hlab.
  { intros label x ([raw l] & -> & Hin)%list_elem_of_fmap.
    apply list_elem_of_In, filter_In in Hin as [Hin Hl%String.eqb_eq].
    simpl in *. subst l. split; [exists raw; by rewrite list_elem_of_In|].
    destruct (strip_spec raw) as (_ & _ & _ & _ & _ & Hh & Hl). by split. }
  split; [apply Hlab|]. split; [apply Hlab|].
  split; [|split; apply Hexact].
  rewrite !length_fmap. clear. induction ents as [|[raw l] ents IH]; simpl; [lia|].
  destruct (String.eqb l "PERSON") eqn:Ep; destruct (String.eqb l "ORG") eqn:Eo;
    simpl; try lia.
  apply String.eqb_eq in Ep, Eo. congruence.
Qed.

Lemma extract_entities_trimmed_witness :
  (exists raw, (raw, "PERSON") ∈ [(" Jane Doe ", "PERSON")] /\
     "Jane Doe" = Py.strip raw) /\
  (forall c, head (list_ascii_of_string "Jane Doe") = Some c ->
     Py.isspace c = false) /\
  (forall c, last (list_ascii_of_string "Jane Doe") = Some c ->
     Py.isspace c = false).
Proof.
  refine (proj1 (extract_entities_trimmed Demo.platform
                   "Contact Jane Doe at jane@example.in or call 9876543210"
                   [(" Jane Doe ", "PERSON")] ["Jane Doe"] [] eq_refl eq_refl)
            "Jane Doe" _).
  left.
Defined.

End EntityFacts.
